(** * hft_mm_bot: order-book reconstruction and spread quoting

    A shallow embedding of [src/hft_mm_bot.py] (class [MarketMaker] and the
    per-message body of [handle_messages]) together with the properties of
    the order-book synchronisation protocol and of the spread computation.

    Numeric conventions.  Sequence numbers ([U], [u], [lastUpdateId]) are
    Python integers and are modelled by [Z].  Prices, quantities, mid-prices
    and spreads are Python floats produced by [float(...)]; they are modelled
    by exact rationals [Q], so rounding, infinities and NaN are outside the
    model, and the comparisons [==], [<] of Python are [Qeq_bool] and
    [Qltb].  The fields of a depth update are first taken as already parsed;
    the part on depth updates whose fields may not parse keeps the failures
    of the parsing and relates the two. *)

From Stdlib Require Import QArith ZArith List Bool Lia Lqa.
From Stdlib Require Import Permutation Sorting.Sorted.
Import ListNotations.

Local Open Scope Q_scope.

(** ** Configuration (lines 13-15) *)

Definition INITIAL_SPREAD : Q := 2 # 1000.
Definition MIN_SPREAD : Q := 1 # 1000.
Definition MAX_SPREAD : Q := 1 # 100.

(** ** Data model *)

(** A price level is the two-element Python list [[price, qty]]. *)
Definition Level : Type := (Q * Q)%type.

Record MarketMaker : Type := mkMarketMaker {
  spread : Q;
  mid_prices : list Q;
  bids : list Level;
  asks : list Level;
  last_update_id : option Z;      (* [None] until a snapshot is processed *)
  first_processed : bool
}.

(** [MarketMaker.__init__] (lines 18-24). *)
Definition init : MarketMaker :=
  {| spread := INITIAL_SPREAD; mid_prices := []; bids := []; asks := [];
     last_update_id := None; first_processed := false |}.

(** The depth-update payload: keys ['U'], ['u'], ['b'], ['a']. *)
Record Update : Type := mkUpdate {
  U : Z;
  u : Z;
  b : list Level;
  a : list Level
}.

(** The REST snapshot: keys ['bids'], ['asks'], ['lastUpdateId']. *)
Record Snapshot : Type := mkSnapshot {
  snap_bids : list Level;
  snap_asks : list Level;
  lastUpdateId : Z
}.

(** Exceptions the modelled code can raise.  [ValueError] is the one of
    line 55; its two arguments are the values interpolated in its message.
    [TypeError] is what [None + 1] raises when no snapshot was processed. *)
Inductive exn : Type :=
| ValueError (last_update_id_shown : Z) (U_shown : Z)
| TypeError.

(** ** A state-and-exception monad for the methods of [MarketMaker]

    A method call maps the object before the call to an outcome and the
    object after the call; a raised exception keeps whatever was assigned
    before it. *)

Inductive result (A : Type) : Type :=
| Ok (x : A)
| Raise (e : exn).
Arguments Ok {A} x.
Arguments Raise {A} e.

Definition M (A : Type) : Type := MarketMaker -> result A * MarketMaker.

Definition ret {A} (x : A) : M A := fun mm => (Ok x, mm).
Definition raise {A} (e : exn) : M A := fun mm => (Raise e, mm).
Definition bind {A B} (m : M A) (k : A -> M B) : M B :=
  fun mm => match m mm with
            | (Ok x, mm') => k x mm'
            | (Raise e, mm') => (Raise e, mm')
            end.
Definition get {A} (f : MarketMaker -> A) : M A := fun mm => (Ok (f mm), mm).
Definition modify (f : MarketMaker -> MarketMaker) : M unit :=
  fun mm => (Ok tt, f mm).

Notation "x <- m ;; k" := (bind m (fun x => k))
  (at level 61, m at next level, right associativity).
Notation "m ;;; k" := (bind m (fun _ => k))
  (at level 61, right associativity).

Definition set_spread (s : Q) (mm : MarketMaker) : MarketMaker :=
  {| spread := s; mid_prices := mid_prices mm; bids := bids mm;
     asks := asks mm; last_update_id := last_update_id mm;
     first_processed := first_processed mm |}.
Definition set_mid_prices (l : list Q) (mm : MarketMaker) : MarketMaker :=
  {| spread := spread mm; mid_prices := l; bids := bids mm;
     asks := asks mm; last_update_id := last_update_id mm;
     first_processed := first_processed mm |}.
Definition set_bids (l : list Level) (mm : MarketMaker) : MarketMaker :=
  {| spread := spread mm; mid_prices := mid_prices mm; bids := l;
     asks := asks mm; last_update_id := last_update_id mm;
     first_processed := first_processed mm |}.
Definition set_asks (l : list Level) (mm : MarketMaker) : MarketMaker :=
  {| spread := spread mm; mid_prices := mid_prices mm; bids := bids mm;
     asks := l; last_update_id := last_update_id mm;
     first_processed := first_processed mm |}.
Definition set_last_update_id (i : option Z) (mm : MarketMaker) : MarketMaker :=
  {| spread := spread mm; mid_prices := mid_prices mm; bids := bids mm;
     asks := asks mm; last_update_id := i;
     first_processed := first_processed mm |}.
Definition set_first_processed (f : bool) (mm : MarketMaker) : MarketMaker :=
  {| spread := spread mm; mid_prices := mid_prices mm; bids := bids mm;
     asks := asks mm; last_update_id := last_update_id mm;
     first_processed := f |}.

(** ** Comparisons of floats and of levels *)

Definition Qltb (x y : Q) : bool :=
  match x ?= y with Lt => true | _ => false end.

(** Python's two-argument [max] and [min]: the first argument is kept
    unless the second is strictly greater (resp. smaller). *)
Definition py_max (x y : Q) : Q := if Qltb x y then y else x.
Definition py_min (x y : Q) : Q := if Qltb y x then y else x.

(** [x < y] on two-element lists: lexicographic, the first differing
    position decides. *)
Definition level_ltb (x y : Level) : bool :=
  if Qeq_bool (fst x) (fst y) then Qltb (snd x) (snd y)
  else Qltb (fst x) (fst y).

(** [list.sort] is stable, also with [reverse=True]; its result is the one
    of a stable insertion sort.  [goes_after reverse x y] says that [x]
    has to be placed after [y]. *)
Definition goes_after (reverse : bool) (x y : Level) : bool :=
  if reverse then level_ltb x y else level_ltb y x.

Fixpoint insert_level (reverse : bool) (x : Level) (l : list Level) : list Level :=
  match l with
  | [] => [x]
  | y :: l' => if goes_after reverse x y then y :: insert_level reverse x l'
               else x :: y :: l'
  end.

Fixpoint sort_levels (reverse : bool) (l : list Level) : list Level :=
  match l with
  | [] => []
  | x :: l' => insert_level reverse x (sort_levels reverse l')
  end.

(** ** [MarketMaker.update_spread] (lines 26-27) *)

Definition update_spread (volatility : Q) : M unit :=
  modify (set_spread (py_max MIN_SPREAD (py_min MAX_SPREAD ((3 # 1000) * volatility)))).

(** ** [MarketMaker.process_snapshot] (lines 29-34) *)

Definition process_snapshot (data : Snapshot) : M unit :=
  modify (set_bids (sort_levels true (snap_bids data))) ;;;
  modify (set_asks (sort_levels false (snap_asks data))) ;;;
  modify (set_last_update_id (Some (lastUpdateId data))).

(** ** [MarketMaker.apply_changes] (lines 57-85) *)

(** [existing[1] = qty] for the first level whose price is [price]. *)
Fixpoint update_first (price qty : Q) (side : list Level) : list Level :=
  match side with
  | [] => []
  | x :: side' => if Qeq_bool (fst x) price then (fst x, qty) :: side'
                  else x :: update_first price qty side'
  end.

(** One iteration of the loops at lines 60-70 and 74-84. *)
Definition apply_level (side : list Level) (c : Level) : list Level :=
  let '(price, qty) := c in
  if Qeq_bool qty 0 then
    filter (fun x => negb (Qeq_bool (fst x) price)) side
  else if existsb (fun x => Qeq_bool (fst x) price) side then
    update_first price qty side
  else side ++ [(price, qty)].

Definition apply_side (reverse : bool) (changes side : list Level) : list Level :=
  sort_levels reverse (fold_left apply_level changes side).

Definition apply_changes (data : Update) : M unit :=
  modify (fun mm => set_bids (apply_side true (b data) (bids mm)) mm) ;;;
  modify (fun mm => set_asks (apply_side false (a data) (asks mm)) mm).

(** ** [MarketMaker.process_update] (lines 36-55) *)

(** [self.last_update_id + 1]. *)
Definition last_update_id_plus_1 : M Z :=
  fun mm => match last_update_id mm with
            | Some l => (Ok (l + 1)%Z, mm)
            | None => (Raise TypeError, mm)
            end.

Definition process_update (data : Update) : M unit :=
  fp <- get first_processed ;;
  if negb fp then
    next <- last_update_id_plus_1 ;;
    if (U data <=? next)%Z && (u data >=? next)%Z then
      modify (set_last_update_id (Some (u data))) ;;;
      modify (set_first_processed true) ;;;
      apply_changes data
    else ret tt
  else
    next <- last_update_id_plus_1 ;;
    if (U data <=? next)%Z then
      if (u data >=? next)%Z then
        apply_changes data ;;;
        modify (set_last_update_id (Some (u data)))
      else ret tt
    else
      l <- get last_update_id ;;
      match l with
      | Some l => raise (ValueError l (U data))
      | None => raise TypeError
      end.

(** ** The loop body of [handle_messages] (lines 89-130) *)

(** What [json.loads] yields: a depth-update dictionary, or anything else
    (another event, a non-dictionary value, text that is not JSON), which the
    loop skips. *)
Inductive message : Type :=
| DepthUpdate (data : Update)
| OtherMessage.

(** The values interpolated in the log line of lines 114-119. *)
Record QuoteLog : Type := mkQuoteLog {
  log_our_bid : Q;
  log_our_ask : Q;
  log_spread_percent : Q;
  log_best_bid : Q;
  log_best_ask : Q
}.

(** Lines 111 and 112. *)
Definition our_bid (mid spread : Q) : Q := mid * (1 - spread / 2).
Definition our_ask (mid spread : Q) : Q := mid * (1 + spread / 2).

(** [mm.mid_prices[-20:]]. *)
Definition last_20 (l : list Q) : list Q := skipn (length l - 20) l.

(** [np.diff]. *)
Fixpoint np_diff (l : list Q) : list Q :=
  match l with
  | x :: (y :: _) as l' => (y - x) :: np_diff l'
  | _ => []
  end.

(** [np.diff(prices) / prices[:-1]], element by element (a zero price, for
    which numpy yields an infinity or NaN, is outside the model). *)
Definition relative_returns (prices : list Q) : list Q :=
  map (fun dp => fst dp / snd dp) (combine (np_diff prices) (removelast prices)).

(** [try: m except ...: handler]. *)
Definition try_except {A} (m : M A) (handler : exn -> M A) : M A :=
  fun mm => match m mm with
            | (Ok x, mm') => (Ok x, mm')
            | (Raise e, mm') => handler e mm'
            end.

(** The mid-price of lines 98-100, when the condition of line 98 holds. *)
Definition observation (mm : MarketMaker) : option Q :=
  match bids mm, asks mm, first_processed mm with
  | bb :: _, ba :: _, true => Some ((fst bb + fst ba) / 2)
  | _, _, _ => None
  end.

(** The value [update_spread] assigns. *)
Definition spread_for (volatility : Q) : Q :=
  spread (snd (update_spread volatility init)).

Section HandleMessages.

(** [scipy.ndimage.uniform_filter1d(_, size=5)] and [numpy.std] are
    library functions; the development is parametric in them. *)
Variable uniform_filter1d_5 : list Q -> list Q.
Variable np_std : list Q -> Q.

(** Lines 105-107. *)
Definition volatility_of (mid_prices : list Q) : Q :=
  let prices := uniform_filter1d_5 (last_20 mid_prices) in
  let returns := relative_returns prices in
  np_std returns.

(** Lines 96-119: the inner [try] block for one depth update. *)
Definition on_depth_update (data : Update) : M (option QuoteLog) :=
  process_update data ;;;
  bs <- get bids ;;
  as_ <- get asks ;;
  fp <- get first_processed ;;
  match bs, as_, fp with
  | bb :: _, ba :: _, true =>
      let best_bid := fst bb in
      let best_ask := fst ba in
      let mid := (best_bid + best_ask) / 2 in
      modify (fun mm => set_mid_prices (mid_prices mm ++ [mid]) mm) ;;;
      mp <- get mid_prices ;;
      if (20 <? length mp)%nat then
        let vol := volatility_of mp in
        update_spread vol ;;;
        s <- get spread ;;
        ret (Some {| log_our_bid := our_bid mid s;
                     log_our_ask := our_ask mid s;
                     log_spread_percent := s * 100;
                     log_best_bid := best_bid;
                     log_best_ask := best_ask |})
      else ret None
  | _, _, _ => ret None
  end.

(** One iteration of the [async for]: a [ValueError] is re-raised (lines
    120-122 and 126-128), any other exception is logged and the loop goes
    on (lines 129-130).  The result is the quote logged, if any. *)
Definition handle_message (msg : message) : M (option QuoteLog) :=
  match msg with
  | DepthUpdate data =>
      try_except (on_depth_update data)
        (fun e => match e with
                  | ValueError l f => raise (ValueError l f)
                  | TypeError => ret None
                  end)
  | OtherMessage => ret None
  end.

(** The loop over the stream.  The quotes logged are returned next to the
    outcome, since a line logged before a [ValueError] stays logged; a
    raised [ValueError] ends the loop. *)
Fixpoint handle_messages (ws : list message) (mm : MarketMaker)
  : list QuoteLog * (result unit * MarketMaker) :=
  match ws with
  | [] => ([], (Ok tt, mm))
  | msg :: ws' =>
      match handle_message msg mm with
      | (Ok q, mm') =>
          let (qs, r) := handle_messages ws' mm' in
          (match q with Some q => q :: qs | None => qs end, r)
      | (Raise e, mm') => ([], (Raise e, mm'))
      end
  end.

(** Lines 98-119 as one expression: what the loop body does with the
    object [mm1] that [process_update] has returned normally. *)
Definition after_process_update (mm1 : MarketMaker)
  : result (option QuoteLog) * MarketMaker :=
  match observation mm1 with
  | None => (Ok None, mm1)
  | Some mid =>
      let mp := mid_prices mm1 ++ [mid] in
      if (20 <? length mp)%nat then
        let s := spread_for (volatility_of mp) in
        (Ok (Some {| log_our_bid := our_bid mid s;
                     log_our_ask := our_ask mid s;
                     log_spread_percent := s * 100;
                     log_best_bid := fst (hd (0, 0) (bids mm1));
                     log_best_ask := fst (hd (0, 0) (asks mm1)) |}),
         set_spread s (set_mid_prices mp mm1))
      else (Ok None, set_mid_prices mp mm1)
  end.

End HandleMessages.

(** The book after a sequence of [process_update] calls, whatever their
    outcomes (an exception leaves the object as it is at the raise). *)
Definition after_updates (ds : list Update) (mm : MarketMaker) : MarketMaker :=
  fold_left (fun mm d => snd (process_update d mm)) ds mm.

(** The object after a diff was applied: the same in both branches of
    [process_update] that call [apply_changes]. *)
Definition applied (d : Update) (mm : MarketMaker) : MarketMaker :=
  {| spread := spread mm; mid_prices := mid_prices mm;
     bids := apply_side true (b d) (bids mm);
     asks := apply_side false (a d) (asks mm);
     last_update_id := Some (u d);
     first_processed := true |}.

(** ** Depth updates whose fields may not parse

    The definitions above take the fields of a depth update as parsed.
    What follows keeps the failures of the parsing the code does on its
    way: [data['U']], [data['u']], [data['b']] and [data['a']] can be
    missing or of a type the code cannot use, and an entry of a change list
    can fail to unpack into two values that [float] accepts. *)

(** What [for price, qty in ...] and the two calls of [float] (lines 60-61
    and 74-75) make of one entry of a change list. *)
Inductive raw_level : Type :=
| Parsed (price qty : Q)
| RaisesValueError      (* not two values, or a string [float] rejects *)
| RaisesTypeError.      (* not iterable, or a value [float] cannot take *)

Record RawUpdate : Type := mkRawUpdate {
  raw_U : option Z;                  (* [None]: key missing, or no number *)
  raw_u : option Z;
  raw_b : option (list raw_level);   (* [None]: key missing, or not iterable *)
  raw_a : option (list raw_level)
}.

(** The exceptions, by what the handlers of lines 120-130 do with them. *)
Inductive raw_exn : Type :=
| GapValueError (last_update_id_shown : Z) (U_shown : Z)   (* line 55 *)
| ParseValueError       (* a [ValueError] of unpacking or of [float] *)
| OtherException.       (* [KeyError], [TypeError]: no [ValueError] *)

Inductive raw_result (A : Type) : Type :=
| Returns (x : A)
| Raises (e : raw_exn).
Arguments Returns {A} x.
Arguments Raises {A} e.

(** One of the loops of lines 60-70 and 74-84: it stops at the first entry
    that does not parse, with the side as the entries before it left it. *)
Fixpoint raw_apply_levels (changes : list raw_level) (side : list Level)
  : option raw_exn * list Level :=
  match changes with
  | [] => (None, side)
  | Parsed price qty :: changes' =>
      raw_apply_levels changes' (apply_level side (price, qty))
  | RaisesValueError :: _ => (Some ParseValueError, side)
  | RaisesTypeError :: _ => (Some OtherException, side)
  end.

(** [apply_changes] (lines 57-85): a side is sorted only after its loop
    has run through. *)
Definition raw_apply_changes (data : RawUpdate) (mm : MarketMaker)
  : raw_result unit * MarketMaker :=
  match raw_b data with
  | None => (Raises OtherException, mm)
  | Some bs =>
      match raw_apply_levels bs (bids mm) with
      | (Some e, side) => (Raises e, set_bids side mm)
      | (None, side) =>
          let mm1 := set_bids (sort_levels true side) mm in
          match raw_a data with
          | None => (Raises OtherException, mm1)
          | Some as_ =>
              match raw_apply_levels as_ (asks mm1) with
              | (Some e, side') => (Raises e, set_asks side' mm1)
              | (None, side') =>
                  (Returns tt, set_asks (sort_levels false side') mm1)
              end
          end
      end
  end.

(** [process_update] (lines 36-55). *)
Definition raw_process_update (data : RawUpdate) (mm : MarketMaker)
  : raw_result unit * MarketMaker :=
  if negb (first_processed mm) then
    match raw_U data, last_update_id mm with
    | Some U_, Some l =>
        if (U_ <=? l + 1)%Z then
          match raw_u data with
          | Some u_ =>
              if (u_ >=? l + 1)%Z then
                raw_apply_changes data
                  (set_first_processed true
                     (set_last_update_id (Some u_) mm))
              else (Returns tt, mm)
          | None => (Raises OtherException, mm)
          end
        else (Returns tt, mm)
    | _, _ => (Raises OtherException, mm)
    end
  else
    match raw_U data, last_update_id mm with
    | Some U_, Some l =>
        if (U_ <=? l + 1)%Z then
          match raw_u data with
          | Some u_ =>
              if (u_ >=? l + 1)%Z then
                match raw_apply_changes data mm with
                | (Returns _, mm1) =>
                    (Returns tt, set_last_update_id (Some u_) mm1)
                | (Raises e, mm1) => (Raises e, mm1)
                end
              else (Returns tt, mm)
          | None => (Raises OtherException, mm)
          end
        else (Raises (GapValueError l U_), mm)
    | _, _ => (Raises OtherException, mm)
    end.

Inductive raw_message : Type :=
| RawDepthUpdate (data : RawUpdate)
| RawOtherMessage.

(** One iteration of the loop of [handle_messages]: a [ValueError], the
    gap one or one of the parsing, is re-raised; any other exception is
    logged and the loop goes on with the object as the exception left it;
    after a normal return lines 98-119 follow. *)
Definition raw_handle_message
    (uniform_filter1d_5 : list Q -> list Q) (np_std : list Q -> Q)
    (msg : raw_message) (mm : MarketMaker)
  : raw_result (option QuoteLog) * MarketMaker :=
  match msg with
  | RawDepthUpdate data =>
      match raw_process_update data mm with
      | (Returns _, mm1) =>
          let r := after_process_update uniform_filter1d_5 np_std mm1 in
          (match fst r with
           | Ok q => Returns q
           | Raise _ => Raises OtherException
           end, snd r)
      | (Raises OtherException, mm1) => (Returns None, mm1)
      | (Raises e, mm1) => (Raises e, mm1)
      end
  | RawOtherMessage => (Returns None, mm)
  end.

Fixpoint raw_handle_messages
    (uniform_filter1d_5 : list Q -> list Q) (np_std : list Q -> Q)
    (ws : list raw_message) (mm : MarketMaker)
  : list QuoteLog * (raw_result unit * MarketMaker) :=
  match ws with
  | [] => ([], (Returns tt, mm))
  | msg :: ws' =>
      match raw_handle_message uniform_filter1d_5 np_std msg mm with
      | (Returns q, mm') =>
          let (qs, r) := raw_handle_messages uniform_filter1d_5 np_std ws' mm' in
          (match q with Some q => q :: qs | None => qs end, r)
      | (Raises e, mm') => ([], (Raises e, mm'))
      end
  end.

(** A depth update all of whose fields parse, as it arrives. *)
Definition raw_of_level (c : Level) : raw_level := Parsed (fst c) (snd c).

Definition raw_of (d : Update) : RawUpdate :=
  {| raw_U := Some (U d); raw_u := Some (u d);
     raw_b := Some (map raw_of_level (b d));
     raw_a := Some (map raw_of_level (a d)) |}.

Definition raw_of_message (msg : message) : raw_message :=
  match msg with
  | DepthUpdate d => RawDepthUpdate (raw_of d)
  | OtherMessage => RawOtherMessage
  end.

Definition raw_of_exn (e : exn) : raw_exn :=
  match e with
  | ValueError l U_ => GapValueError l U_
  | TypeError => OtherException
  end.

Definition raw_of_result {A : Type} (r : result A) : raw_result A :=
  match r with
  | Ok x => Returns x
  | Raise e => Raises (raw_of_exn e)
  end.



(** ** Vocabulary of the specification *)

(** The three synchronisation states are not a field of [MarketMaker]; they
    are read off [last_update_id] and [first_processed]. *)
Inductive SyncState : Type := UNSYNCED | AWAITING_FIRST_DIFF | SYNCED.

Definition sync_state (mm : MarketMaker) : SyncState :=
  if first_processed mm then SYNCED
  else match last_update_id mm with
       | Some _ => AWAITING_FIRST_DIFF
       | None => UNSYNCED
       end.

(** [clamp(x, lo, hi)] in the words of the specification. *)
Definition clamp (x lo hi : Q) : Q :=
  if Qltb x lo then lo else if Qltb hi x then hi else x.

(** A diff is in order when [firstSeq <= lastSequence + 1 <= lastSeq]. *)
Definition in_order (mm : MarketMaker) (d : Update) : bool :=
  match last_update_id mm with
  | Some l => (U d <=? l + 1)%Z && (l + 1 <=? u d)%Z
  | None => false
  end.

(** Every diff of the sequence is in order when it is processed. *)
Fixpoint all_in_order (mm : MarketMaker) (ds : list Update) : bool :=
  match ds with
  | [] => true
  | d :: ds' => in_order mm d && all_in_order (snd (process_update d mm)) ds'
  end.

(** The cumulative change lists of a sequence of diffs, as one diff. *)
Definition batch (ds : list Update) : Update :=
  {| U := 0; u := 0;
     b := concat (map b ds);
     a := concat (map a ds) |}.

(** Price order of one side: bids descending, asks ascending. *)
Definition price_before (reverse : bool) (x y : Level) : Prop :=
  if reverse then fst y <= fst x else fst x <= fst y.
Definition price_strictly_before (reverse : bool) (x y : Level) : Prop :=
  if reverse then fst y < fst x else fst x < fst y.

Definition sorted_side (reverse : bool) (l : list Level) : Prop :=
  StronglySorted (price_before reverse) l.
Definition strictly_sorted_side (reverse : bool) (l : list Level) : Prop :=
  StronglySorted (price_strictly_before reverse) l.

(** No two entries of the side have the same price. *)
Fixpoint distinct_prices (l : list Level) : Prop :=
  match l with
  | [] => True
  | x :: l' => (forall y, In y l' -> ~ fst y == fst x) /\ distinct_prices l'
  end.

Definition no_zero_qty (l : list Level) : Prop :=
  forall x, In x l -> ~ snd x == 0.
Definition no_negative_qty (l : list Level) : Prop :=
  forall x, In x l -> 0 <= snd x.

(** Executable versions, for concrete books. *)
Fixpoint distinct_pricesb (l : list Level) : bool :=
  match l with
  | [] => true
  | x :: l' => forallb (fun y => negb (Qeq_bool (fst y) (fst x))) l'
               && distinct_pricesb l'
  end.
Definition no_zero_qtyb (l : list Level) : bool :=
  forallb (fun x => negb (Qeq_bool (snd x) 0)) l.
Definition no_negative_qtyb (l : list Level) : bool :=
  forallb (fun x => Qle_bool 0 (snd x)) l.
Fixpoint sorted_sideb (reverse : bool) (l : list Level) : bool :=
  match l with
  | [] => true
  | x :: l' =>
      forallb (fun y => if reverse then Qle_bool (fst y) (fst x)
                        else Qle_bool (fst x) (fst y)) l'
      && sorted_sideb reverse l'
  end.

(** The level-set invariant of the specification, on one side and on the
    whole book. *)
Definition side_ok (reverse : bool) (l : list Level) : bool :=
  distinct_pricesb l && no_zero_qtyb l && no_negative_qtyb l
  && sorted_sideb reverse l.
Definition book_ok (mm : MarketMaker) : bool :=
  side_ok true (bids mm) && side_ok false (asks mm).

(** ** Further vocabulary *)

(** The first level of a side at a price, as the generator expressions of
    lines 66 and 80 find it. *)
Definition find_level (price : Q) (side : list Level) : option Level :=
  find (fun x => Qeq_bool (fst x) price) side.

(** The order [list.sort] leaves a side in: no level has to be placed
    after its successor. *)
Definition lex_sorted (reverse : bool) (l : list Level) : Prop :=
  Sorted (fun x y => goes_after reverse x y = false) l.

(** Diffs that follow one another from the cursor [l]: each starts at most
    one past the cursor and ends at or after it, and moves the cursor to its
    [u]. *)
Fixpoint chain (l : Z) (ds : list Update) : bool :=
  match ds with
  | [] => true
  | d :: ds' => (U d <=? l + 1)%Z && (l + 1 <=? u d)%Z && chain (u d) ds'
  end.

(** One synchronisation attempt of [run_bot] (lines 144-174) whose snapshot
    request and connection succeed: a new [MarketMaker], the snapshot, then
    the stream. *)
Definition attempt (uniform_filter1d_5 : list Q -> list Q) (np_std : list Q -> Q)
    (snapshot_data : Snapshot) (ws : list message)
  : list QuoteLog * (result unit * MarketMaker) :=
  handle_messages uniform_filter1d_5 np_std ws
    (snd (process_snapshot snapshot_data init)).

(** What a change [c] makes of the level found at price [price]. *)
Definition change_at (price : Q) (found : option Level) (c : Level)
  : option Level :=
  if Qeq_bool (fst c) price then
    if Qeq_bool (snd c) 0 then None
    else Some (match found with
               | Some x => (fst x, snd c)
               | None => c
               end)
  else found.

(** What a batch of changes can make of the level found at one price:
    leave it, fix the outcome, or set the quantity of the level found (of a
    new level at [p0] when none was found). *)
Inductive shape : Type :=
| KeepFound
| Constant (o : option Level)
| SetQty (p0 q : Q).

Definition shape_at (sh : shape) (found : option Level) : option Level :=
  match sh with
  | KeepFound => found
  | Constant o => o
  | SetQty p0 q => Some (match found with
                         | Some x => (fst x, q)
                         | None => (p0, q)
                         end)
  end.

(** Two objects that hold the same book: they may differ in [spread] and
    [mid_prices] only. *)
Definition same_book (mm1 mm2 : MarketMaker) : Prop :=
  bids mm1 = bids mm2 /\ asks mm1 = asks mm2 /\
  last_update_id mm1 = last_update_id mm2 /\
  first_processed mm1 = first_processed mm2.

(** The cursor after a sequence of applied diffs. *)
Definition last_u (l : Z) (ds : list Update) : Z :=
  fold_left (fun _ d => u d) ds l.

(** A side [side'] holds the outcome of the changes [cs] on [side], said
    without the code: it is in its side's price order; a level whose price
    no change names is in it exactly when it was in [side]; and, [side]
    having no price twice, it has none either and the level it holds at any
    price is what the changes at that price, in their order, make of the
    level [side] held there (quantity 0 removes it, any other quantity
    replaces its quantity or adds the change as a new level). *)
Definition changes_applied (reverse : bool) (cs side side' : list Level) : Prop :=
  sorted_side reverse side' /\
  (forall x, (forall c, In c cs -> ~ fst c == fst x) ->
             (In x side' <-> In x side)) /\
  (distinct_prices side ->
   distinct_prices side' /\
   forall p, find_level p side'
             = fold_left (change_at p) cs (find_level p side)).

(** ** Concrete books and messages *)

(** The books and the snapshot of the scenarios of the specification. *)
Definition plain_snapshot : Snapshot :=
  {| snap_bids := [(100, 1)]; snap_asks := [(101, 1)]; lastUpdateId := 1000 |}.

Definition awaiting_1000 : MarketMaker :=
  {| spread := INITIAL_SPREAD; mid_prices := [];
     bids := [(100, 1)]; asks := [(101, 1)];
     last_update_id := Some 1000%Z; first_processed := false |}.

Definition synced_1001 : MarketMaker :=
  {| spread := INITIAL_SPREAD; mid_prices := [];
     bids := [(100, 1)]; asks := [(101, 1)];
     last_update_id := Some 1001%Z; first_processed := true |}.

(** A stand-in for [np.std] that depends on its series: the mean. *)
Definition mean_of (l : list Q) : Q :=
  fold_right Qplus 0 l / inject_Z (Z.of_nat (length l)).

(** A synced book around the price 2^20 that has observed 5 and then
    1, 2, 4, ..., 2^19. *)
Definition synced_doubling : MarketMaker :=
  {| spread := INITIAL_SPREAD;
     mid_prices := 5 :: map (fun k => inject_Z (2 ^ Z.of_nat k)) (seq 0 20);
     bids := [(1048575, 1)]; asks := [(1048577, 1)];
     last_update_id := Some 1001%Z; first_processed := true |}.

(** A synced book with [n] mid-prices observed so far. *)
Definition synced_with (n : nat) : MarketMaker :=
  {| spread := INITIAL_SPREAD; mid_prices := repeat (201 # 2) n;
     bids := [(100, 1)]; asks := [(101, 1)];
     last_update_id := Some 1001%Z; first_processed := true |}.

(** Diffs for these books. *)
Definition remove_bid_100 : Update :=
  {| U := 1001; u := 1001; b := [(100, 0)]; a := [] |}.

Definition add_levels : Update :=
  {| U := 1002; u := 1004; b := [(99, 2); (100, 3)]; a := [(101, 4); (102, 1)] |}.

Definition add_first_levels : Update :=
  {| U := 998; u := 1003; b := [(99, 2); (100, 3)]; a := [(101, 0); (102, 1)] |}.

Definition next_diff : Update :=
  {| U := 1002; u := 1002; b := [(100, 2)]; a := [] |}.

Definition stale_diff : Update :=
  {| U := 990; u := 999; b := [(100, 5)]; a := [] |}.

(** A snapshot that lists the ask price 100 twice, as [process_snapshot]
    stores it, and two diffs that are in order one after the other. *)
Definition twice_100_snapshot : Snapshot :=
  {| snap_bids := [(99, 1)]; snap_asks := [(100, 1); (100, 2)];
     lastUpdateId := 10 |}.

Definition ask_100_to_5 : Update :=
  {| U := 11; u := 11; b := []; a := [(100, 5)] |}.

Definition ask_100_to_7 : Update :=
  {| U := 12; u := 12; b := []; a := [(100, 7)] |}.

(** A snapshot with a zero quantity, and a diff with a negative one. *)
Definition zero_qty_snapshot : Snapshot :=
  {| snap_bids := [(100, 0)]; snap_asks := [(101, 1)]; lastUpdateId := 1000 |}.

Definition negative_qty_diff : Update :=
  {| U := 1001; u := 1001; b := [(100, -(1))]; a := [] |}.

(** Stand-ins for the two library functions, to run the model on concrete
    messages. *)
Definition plain_filter : list Q -> list Q := fun l => l.
Definition zero_std : list Q -> Q := fun _ => 0.



(** * Properties *)

(** ** Comparisons *)

Lemma Qltb_true (x y : Q) : Qltb x y = true <-> x < y.
Proof.
  unfold Qltb. rewrite Qlt_alt. destruct (x ?= y); split; congruence.
Qed.

Lemma Qltb_false (x y : Q) : Qltb x y = false <-> y <= x.
Proof.
  split.
  - intros H. apply Qnot_lt_le. intros L. apply Qltb_true in L. congruence.
  - intros H. apply not_true_iff_false. intros L. apply Qltb_true in L.
    exact (Qle_not_lt _ _ H L).
Qed.

Lemma Qeq_bool_false (x y : Q) : Qeq_bool x y = false <-> ~ x == y.
Proof.
  rewrite <- Qeq_bool_iff, not_true_iff_false. reflexivity.
Qed.

Lemma level_ltb_true_price (x y : Level) :
  level_ltb x y = true -> fst x <= fst y.
Proof.
  unfold level_ltb. destruct (Qeq_bool (fst x) (fst y)) eqn:E.
  - intros _. apply Qeq_bool_iff in E. rewrite E. apply Qle_refl.
  - intros H. apply Qltb_true in H. apply Qlt_le_weak, H.
Qed.

Lemma level_ltb_false_price (x y : Level) :
  level_ltb x y = false -> fst y <= fst x.
Proof.
  unfold level_ltb. destruct (Qeq_bool (fst x) (fst y)) eqn:E.
  - intros _. apply Qeq_bool_iff in E. rewrite E. apply Qle_refl.
  - intros H. apply Qltb_false in H. exact H.
Qed.

Lemma goes_after_true (r : bool) (x y : Level) :
  goes_after r x y = true -> price_before r y x.
Proof.
  destruct r; simpl; apply level_ltb_true_price.
Qed.

Lemma goes_after_false (r : bool) (x y : Level) :
  goes_after r x y = false -> price_before r x y.
Proof.
  destruct r; simpl; apply level_ltb_false_price.
Qed.

Lemma price_before_trans (r : bool) (x y z : Level) :
  price_before r x y -> price_before r y z -> price_before r x z.
Proof.
  destruct r; simpl; intros; eapply Qle_trans; eassumption.
Qed.

(** ** The sort *)

Lemma insert_level_perm (r : bool) (x : Level) (l : list Level) :
  Permutation (insert_level r x l) (x :: l).
Proof.
  induction l as [|y l IH]; simpl.
  - apply Permutation_refl.
  - destruct (goes_after r x y).
    + eapply perm_trans; [apply perm_skip, IH | apply perm_swap].
    + apply Permutation_refl.
Qed.

Lemma sort_levels_perm (r : bool) (l : list Level) :
  Permutation (sort_levels r l) l.
Proof.
  induction l as [|x l IH]; simpl.
  - constructor.
  - eapply perm_trans; [apply insert_level_perm | apply perm_skip, IH].
Qed.

Lemma insert_level_sorted (r : bool) (x : Level) (l : list Level) :
  sorted_side r l -> sorted_side r (insert_level r x l).
Proof.
  unfold sorted_side. induction 1 as [|y l Hs IH Hy]; simpl.
  - repeat constructor.
  - destruct (goes_after r x y) eqn:E.
    + constructor; [exact IH|].
      apply goes_after_true in E.
      eapply Permutation_Forall;
        [apply Permutation_sym, insert_level_perm|].
      constructor; assumption.
    + apply goes_after_false in E.
      constructor; [constructor; assumption|].
      constructor; [exact E|].
      eapply Forall_impl; [|exact Hy].
      intros z Hz. eapply price_before_trans; eassumption.
Qed.

Lemma sort_levels_sorted (r : bool) (l : list Level) :
  sorted_side r (sort_levels r l).
Proof.
  induction l; simpl; [constructor | apply insert_level_sorted; assumption].
Qed.

(** ** Sides without duplicate prices *)

Lemma distinct_prices_perm (l l' : list Level) :
  Permutation l l' -> distinct_prices l -> distinct_prices l'.
Proof.
  induction 1 as [|x l l' Hp IH|x y l|l l' l'' H1 IH1 H2 IH2]; simpl; auto.
  - intros [Hx Hd]. split; [|auto].
    intros y Hy. apply Hx. eapply Permutation_in; [apply Permutation_sym|]; eassumption.
  - intros [Hy [Hx Hd]]. split; [|split; [|exact Hd]].
    + intros z [<-|Hz]; [|auto].
      intros E. apply (Hy x); [now left | symmetry; exact E].
    + intros z Hz. apply Hy. now right.
Qed.

Lemma strictly_sorted_distinct (r : bool) (l : list Level) :
  strictly_sorted_side r l -> distinct_prices l.
Proof.
  induction 1 as [|x l Hs IH Hx]; simpl; [exact I|].
  split; [|exact IH].
  intros y Hy E. rewrite Forall_forall in Hx. specialize (Hx y Hy).
  destruct r; simpl in Hx; rewrite E in Hx; exact (Qlt_irrefl _ Hx).
Qed.

Lemma sorted_distinct_strictly (r : bool) (l : list Level) :
  sorted_side r l -> distinct_prices l -> strictly_sorted_side r l.
Proof.
  induction 1 as [|x l Hs IH Hx]; simpl; [constructor|].
  intros [Hd Hl]. constructor; [exact (IH Hl)|].
  rewrite Forall_forall in Hx. apply Forall_forall. intros y Hy.
  specialize (Hx y Hy). specialize (Hd y Hy).
  destruct r; simpl in *; apply Qle_lteq in Hx; destruct Hx as [Hx|Hx]; auto.
  - contradiction.
  - symmetry in Hx. contradiction.
Qed.

(** Two strictly sorted sides with the same levels are the same list. *)
Lemma strictly_sorted_perm_eq (r : bool) (l l' : list Level) :
  strictly_sorted_side r l -> strictly_sorted_side r l' ->
  Permutation l l' -> l = l'.
Proof.
  intros Hl. revert l'.
  induction Hl as [|x l Hs IH Hx]; intros l' Hl' Hp.
  - apply Permutation_nil in Hp. now subst.
  - destruct Hl' as [|y l' Hs' Hy].
    + apply Permutation_sym, Permutation_nil in Hp. discriminate.
    + assert (x = y) as ->.
      { assert (Hin1 : In x (y :: l'))
          by (eapply Permutation_in; [exact Hp | now left]).
        assert (Hin2 : In y (x :: l))
          by (eapply Permutation_in; [apply Permutation_sym, Hp | now left]).
        destruct Hin1 as [->|Hin1]; [reflexivity|].
        destruct Hin2 as [->|Hin2]; [reflexivity|].
        rewrite Forall_forall in Hx, Hy.
        specialize (Hx y Hin2). specialize (Hy x Hin1).
        exfalso. destruct r; simpl in *;
          exact (Qlt_irrefl _ (Qlt_trans _ _ _ Hx Hy)). }
      f_equal. apply IH; [exact Hs'|].
      eapply Permutation_cons_inv; exact Hp.
Qed.

Lemma sort_levels_strictly (r : bool) (l : list Level) :
  distinct_prices l -> strictly_sorted_side r (sort_levels r l).
Proof.
  intros Hd. apply sorted_distinct_strictly.
  - apply sort_levels_sorted.
  - eapply distinct_prices_perm; [apply Permutation_sym, sort_levels_perm | exact Hd].
Qed.

Lemma sort_levels_perm_eq (r : bool) (l l' : list Level) :
  Permutation l l' -> distinct_prices l ->
  sort_levels r l = sort_levels r l'.
Proof.
  intros Hp Hd. apply (strictly_sorted_perm_eq r).
  - apply sort_levels_strictly, Hd.
  - apply sort_levels_strictly. eapply distinct_prices_perm; eassumption.
  - eapply perm_trans; [apply sort_levels_perm|].
    eapply perm_trans; [exact Hp | apply Permutation_sym, sort_levels_perm].
Qed.

Lemma sort_levels_id (r : bool) (l : list Level) :
  strictly_sorted_side r l -> sort_levels r l = l.
Proof.
  intros Hs. apply (strictly_sorted_perm_eq r).
  - apply sort_levels_strictly. eapply strictly_sorted_distinct, Hs.
  - exact Hs.
  - apply sort_levels_perm.
Qed.

(** ** One level change *)

Lemma filter_permutation (f : Level -> bool) (l l' : list Level) :
  Permutation l l' -> Permutation (filter f l) (filter f l').
Proof.
  induction 1 as [|x l l' Hp IH|x y l|l l' l'' H1 IH1 H2 IH2]; simpl.
  - constructor.
  - destruct (f x); [apply perm_skip|]; exact IH.
  - destruct (f x), (f y); try apply Permutation_refl. apply perm_swap.
  - eapply perm_trans; eassumption.
Qed.

Lemma existsb_permutation (f : Level -> bool) (l l' : list Level) :
  Permutation l l' -> existsb f l = existsb f l'.
Proof.
  induction 1 as [|x l l' Hp IH|x y l|l l' l'' H1 IH1 H2 IH2]; simpl.
  - reflexivity.
  - now rewrite IH.
  - destruct (f x), (f y); reflexivity.
  - congruence.
Qed.

Lemma update_first_permutation (p q : Q) (l l' : list Level) :
  Permutation l l' -> distinct_prices l ->
  Permutation (update_first p q l) (update_first p q l').
Proof.
  induction 1 as [|x l l' Hp IH|x y l|l l' l'' H1 IH1 H2 IH2]; simpl.
  - constructor.
  - intros [_ Hd]. destruct (Qeq_bool (fst x) p); apply perm_skip; auto.
  - intros [Hy _].
    destruct (Qeq_bool (fst y) p) eqn:Ey, (Qeq_bool (fst x) p) eqn:Ex;
      try apply perm_swap.
    apply Qeq_bool_iff in Ey, Ex. exfalso.
    apply (Hy x); [now left | now rewrite Ex, Ey].
  - intros Hd. eapply perm_trans; [apply IH1, Hd|].
    apply IH2. eapply distinct_prices_perm; eassumption.
Qed.

Lemma apply_level_permutation (c : Level) (l l' : list Level) :
  Permutation l l' -> distinct_prices l ->
  Permutation (apply_level l c) (apply_level l' c).
Proof.
  intros Hp Hd. destruct c as [p q]. unfold apply_level.
  destruct (Qeq_bool q 0).
  - apply filter_permutation, Hp.
  - pose proof (existsb_permutation (fun x => Qeq_bool (fst x) p) l l' Hp) as E.
    change (Permutation
      (if existsb (fun x : Level => Qeq_bool (fst x) p) l
       then update_first p q l else l ++ [(p, q)])
      (if existsb (fun x : Level => Qeq_bool (fst x) p) l'
       then update_first p q l' else l' ++ [(p, q)])).
    rewrite <- E.
    destruct (existsb (fun x : Level => Qeq_bool (fst x) p) l).
    + apply update_first_permutation; assumption.
    + apply Permutation_app_tail, Hp.
Qed.

Lemma update_first_in_price (p q : Q) (l : list Level) (y : Level) :
  In y (update_first p q l) -> exists x, In x l /\ fst x = fst y.
Proof.
  induction l as [|x l IH]; simpl; [tauto|].
  destruct (Qeq_bool (fst x) p).
  - intros [Hy|Hy]; [exists x; subst y | exists y]; simpl; auto.
  - intros [Hy|Hy]; [exists x; subst y; auto|].
    destruct (IH Hy) as [x' [Hx' E]]. exists x'; auto.
Qed.

Lemma update_first_in_qty (p q : Q) (l : list Level) (y : Level) :
  In y (update_first p q l) -> In y l \/ snd y = q.
Proof.
  induction l as [|x l IH]; simpl; [tauto|].
  destruct (Qeq_bool (fst x) p).
  - intros [Hy|Hy]; [subst y|]; simpl; auto.
  - intros [Hy|Hy]; [auto|]. destruct (IH Hy); auto.
Qed.

Lemma update_first_distinct (p q : Q) (l : list Level) :
  distinct_prices l -> distinct_prices (update_first p q l).
Proof.
  induction l as [|x l IH]; simpl; [auto|].
  intros [Hx Hd]. destruct (Qeq_bool (fst x) p); simpl.
  - split; assumption.
  - split; [|auto]. intros y Hy.
    destruct (update_first_in_price _ _ _ _ Hy) as [x' [Hx' E]].
    rewrite <- E. apply Hx, Hx'.
Qed.

Lemma filter_distinct (f : Level -> bool) (l : list Level) :
  distinct_prices l -> distinct_prices (filter f l).
Proof.
  induction l as [|x l IH]; simpl; [auto|].
  intros [Hx Hd]. destruct (f x); simpl; [|auto].
  split; [|auto]. intros y Hy. apply filter_In in Hy. apply Hx, Hy.
Qed.

Lemma apply_level_distinct (c : Level) (l : list Level) :
  distinct_prices l -> distinct_prices (apply_level l c).
Proof.
  intros Hd. destruct c as [p q]. unfold apply_level.
  destruct (Qeq_bool q 0).
  - apply filter_distinct, Hd.
  - destruct (existsb (fun x : Q * Q => Qeq_bool (fst x) p) l) eqn:E.
    + apply update_first_distinct, Hd.
    + apply (distinct_prices_perm ((p, q) :: l));
        [apply Permutation_cons_append|].
      simpl. split; [|exact Hd].
      intros y Hy Ey. apply not_true_iff_false in E. apply E.
      apply existsb_exists. exists y. split; [exact Hy|].
      apply Qeq_bool_iff, Ey.
Qed.

(** A level of the side after a change was there before, or carries the
    non-zero quantity of the change. *)
Lemma apply_level_in (c : Level) (l : list Level) (y : Level) :
  In y (apply_level l c) ->
  In y l \/ (snd y = snd c /\ ~ snd c == 0).
Proof.
  destruct c as [p q]. unfold apply_level. simpl.
  destruct (Qeq_bool q 0) eqn:Eq.
  - intros Hy. apply filter_In in Hy. tauto.
  - apply Qeq_bool_false in Eq.
    destruct (existsb (fun x : Q * Q => Qeq_bool (fst x) p) l).
    + intros Hy. destruct (update_first_in_qty _ _ _ _ Hy); auto.
    + intros Hy. apply in_app_or in Hy. destruct Hy as [Hy|[<-|[]]]; auto.
Qed.

(** ** A batch of level changes on one side *)

Lemma fold_apply_level_distinct (cs l : list Level) :
  distinct_prices l -> distinct_prices (fold_left apply_level cs l).
Proof.
  revert l. induction cs as [|c cs IH]; simpl; intros l Hd; [exact Hd|].
  apply IH, apply_level_distinct, Hd.
Qed.

Lemma fold_apply_level_permutation (cs l l' : list Level) :
  Permutation l l' -> distinct_prices l ->
  Permutation (fold_left apply_level cs l) (fold_left apply_level cs l').
Proof.
  revert l l'. induction cs as [|c cs IH]; simpl; intros l l' Hp Hd; [exact Hp|].
  apply IH; [apply apply_level_permutation | apply apply_level_distinct]; assumption.
Qed.

Lemma fold_apply_level_in (cs l : list Level) (y : Level) :
  In y (fold_left apply_level cs l) ->
  In y l \/ exists c, In c cs /\ snd y = snd c /\ ~ snd c == 0.
Proof.
  revert l. induction cs as [|c cs IH]; simpl; intros l Hy; [auto|].
  destruct (IH _ Hy) as [H|[c' [Hc' H]]].
  - destruct (apply_level_in _ _ _ H) as [H'|H']; [auto|].
    right. exists c. auto.
  - right. exists c'. auto.
Qed.

Lemma apply_side_sorted (r : bool) (cs l : list Level) :
  sorted_side r (apply_side r cs l).
Proof. apply sort_levels_sorted. Qed.

Lemma apply_side_distinct (r : bool) (cs l : list Level) :
  distinct_prices l -> distinct_prices (apply_side r cs l).
Proof.
  intros Hd. unfold apply_side.
  eapply distinct_prices_perm; [apply Permutation_sym, sort_levels_perm|].
  apply fold_apply_level_distinct, Hd.
Qed.

Lemma apply_side_strictly (r : bool) (cs l : list Level) :
  distinct_prices l -> strictly_sorted_side r (apply_side r cs l).
Proof.
  intros Hd. apply sorted_distinct_strictly;
    [apply apply_side_sorted | apply apply_side_distinct, Hd].
Qed.

Lemma apply_side_in (r : bool) (cs l : list Level) (y : Level) :
  In y (apply_side r cs l) ->
  In y l \/ exists c, In c cs /\ snd y = snd c /\ ~ snd c == 0.
Proof.
  intros Hy. apply fold_apply_level_in.
  eapply Permutation_in; [apply sort_levels_perm | exact Hy].
Qed.

(** Sorting between two batches does not change the outcome on a side
    without duplicate prices. *)
Lemma apply_side_app (r : bool) (cs1 cs2 l : list Level) :
  distinct_prices l ->
  apply_side r cs2 (apply_side r cs1 l) = apply_side r (cs1 ++ cs2) l.
Proof.
  intros Hd. unfold apply_side. rewrite fold_left_app.
  apply sort_levels_perm_eq.
  - apply fold_apply_level_permutation; [apply sort_levels_perm|].
    apply (apply_side_distinct r cs1 l Hd).
  - apply fold_apply_level_distinct. apply (apply_side_distinct r cs1 l Hd).
Qed.

Lemma apply_side_nil (r : bool) (l : list Level) :
  strictly_sorted_side r l -> apply_side r [] l = l.
Proof. apply sort_levels_id. Qed.

(** ** A side as a map from price to level *)

Lemma find_level_key (p p' : Q) (l : list Level) :
  p == p' -> find_level p l = find_level p' l.
Proof.
  intros E. unfold find_level. induction l as [|x l IH]; simpl; [reflexivity|].
  rewrite IH. rewrite E. reflexivity.
Qed.

Lemma find_level_some (p : Q) (l : list Level) (x : Level) :
  find_level p l = Some x -> In x l /\ fst x == p.
Proof.
  intros H. apply find_some in H. destruct H as [H1 H2].
  split; [exact H1 | apply Qeq_bool_iff, H2].
Qed.

Lemma find_level_in (l : list Level) (x : Level) :
  distinct_prices l -> In x l -> find_level (fst x) l = Some x.
Proof.
  unfold find_level. induction l as [|y l IH]; simpl; [tauto|].
  intros [Hy Hd] [->|Hx].
  - rewrite Qeq_bool_refl. reflexivity.
  - destruct (Qeq_bool (fst y) (fst x)) eqn:E; [|auto].
    apply Qeq_bool_iff in E. exfalso. apply (Hy x Hx). symmetry. exact E.
Qed.

Lemma distinct_prices_unique (l : list Level) (x y : Level) :
  distinct_prices l -> In x l -> In y l -> fst x == fst y -> x = y.
Proof.
  intros Hd Hx Hy E.
  pose proof (find_level_in l x Hd Hx) as Fx.
  pose proof (find_level_in l y Hd Hy) as Fy.
  rewrite (find_level_key _ _ l E) in Fx. congruence.
Qed.

Lemma distinct_prices_NoDup (l : list Level) :
  distinct_prices l -> NoDup l.
Proof.
  induction l as [|x l IH]; simpl; [constructor|].
  intros [Hx Hd]. constructor; [|auto].
  intros Hin. apply (Hx x Hin). reflexivity.
Qed.

Lemma find_level_perm (p : Q) (l l' : list Level) :
  Permutation l l' -> distinct_prices l -> find_level p l = find_level p l'.
Proof.
  unfold find_level.
  induction 1 as [|x l l' Hp IH|x y l|l l' l'' H1 IH1 H2 IH2]; simpl.
  - reflexivity.
  - intros [_ Hd]. rewrite IH by exact Hd. reflexivity.
  - intros [Hy _].
    destruct (Qeq_bool (fst y) p) eqn:Ey, (Qeq_bool (fst x) p) eqn:Ex;
      try reflexivity.
    apply Qeq_bool_iff in Ey, Ex. exfalso.
    apply (Hy x); [now left | now rewrite Ex, Ey].
  - intros Hd. rewrite IH1 by exact Hd. apply IH2.
    eapply distinct_prices_perm; eassumption.
Qed.

(** Two sides without duplicate prices that answer every look-up alike
    hold the same levels. *)
Lemma find_level_ext (l l' : list Level) :
  distinct_prices l -> distinct_prices l' ->
  (forall p, find_level p l = find_level p l') -> Permutation l l'.
Proof.
  intros Hd Hd' H.
  apply NoDup_Permutation; try (apply distinct_prices_NoDup; assumption).
  intros x. split; intros Hx.
  - pose proof (find_level_in l x Hd Hx) as F. rewrite H in F.
    apply find_level_some in F. tauto.
  - pose proof (find_level_in l' x Hd' Hx) as F. rewrite <- H in F.
    apply find_level_some in F. tauto.
Qed.

Lemma find_level_filter (p p' : Q) (l : list Level) :
  find_level p (filter (fun x => negb (Qeq_bool (fst x) p')) l)
  = if Qeq_bool p' p then None else find_level p l.
Proof.
  unfold find_level. induction l as [|x l IH]; simpl.
  - destruct (Qeq_bool p' p); reflexivity.
  - destruct (Qeq_bool (fst x) p') eqn:E1; simpl.
    + rewrite IH. destruct (Qeq_bool p' p) eqn:E2; [reflexivity|].
      destruct (Qeq_bool (fst x) p) eqn:E3; [|reflexivity].
      apply Qeq_bool_iff in E1, E3. apply Qeq_bool_false in E2.
      exfalso. apply E2. rewrite <- E1. exact E3.
    + destruct (Qeq_bool (fst x) p) eqn:E3; [|exact IH].
      destruct (Qeq_bool p' p) eqn:E2; [|reflexivity].
      apply Qeq_bool_iff in E2, E3. apply Qeq_bool_false in E1.
      exfalso. apply E1. rewrite E2. exact E3.
Qed.

Lemma find_level_update_first (p p' q : Q) (l : list Level) :
  find_level p (update_first p' q l)
  = if Qeq_bool p' p then
      match find_level p' l with
      | Some y => Some (fst y, q)
      | None => None
      end
    else find_level p l.
Proof.
  unfold find_level. induction l as [|x l IH]; simpl.
  - destruct (Qeq_bool p' p); reflexivity.
  - destruct (Qeq_bool (fst x) p') eqn:E1; simpl.
    + destruct (Qeq_bool p' p) eqn:E2.
      * rewrite (Qeq_bool_trans _ _ _ E1 E2). reflexivity.
      * destruct (Qeq_bool (fst x) p) eqn:E3; [|reflexivity].
        apply Qeq_bool_iff in E1, E3. apply Qeq_bool_false in E2.
        exfalso. apply E2. rewrite <- E1. exact E3.
    + destruct (Qeq_bool (fst x) p) eqn:E3; [|exact IH].
      destruct (Qeq_bool p' p) eqn:E2; [|reflexivity].
      apply Qeq_bool_iff in E2, E3. apply Qeq_bool_false in E1.
      exfalso. apply E1. rewrite E2. exact E3.
Qed.

Lemma find_level_app_one (p : Q) (c : Level) (l : list Level) :
  find_level p (l ++ [c])
  = match find_level p l with
    | Some y => Some y
    | None => if Qeq_bool (fst c) p then Some c else None
    end.
Proof.
  unfold find_level. induction l as [|x l IH]; simpl; [reflexivity|].
  destruct (Qeq_bool (fst x) p); [reflexivity | exact IH].
Qed.

Lemma existsb_find_level (p : Q) (l : list Level) :
  existsb (fun x => Qeq_bool (fst x) p) l
  = match find_level p l with Some _ => true | None => false end.
Proof.
  unfold find_level. induction l as [|x l IH]; simpl; [reflexivity|].
  destruct (Qeq_bool (fst x) p); [reflexivity | exact IH].
Qed.

(** One change, seen through the look-up at a price. *)
Lemma find_level_apply_level (p : Q) (c : Level) (l : list Level) :
  find_level p (apply_level l c) = change_at p (find_level p l) c.
Proof.
  destruct c as [p' q]. unfold apply_level, change_at. cbn [fst snd].
  destruct (Qeq_bool q 0).
  - rewrite find_level_filter. destruct (Qeq_bool p' p); reflexivity.
  - change (existsb (fun x : Q * Q => Qeq_bool (fst x) p') l)
      with (existsb (fun x : Level => Qeq_bool (fst x) p') l).
    rewrite existsb_find_level.
    destruct (Qeq_bool p' p) eqn:E.
    + apply Qeq_bool_iff in E.
      rewrite <- (find_level_key _ _ l E).
      destruct (find_level p' l) as [y|] eqn:F.
      * rewrite find_level_update_first, F.
        rewrite (Qeq_eq_bool _ _ E). reflexivity.
      * rewrite find_level_app_one.
        rewrite <- (find_level_key _ _ l E), F. cbn [fst].
        rewrite (Qeq_eq_bool _ _ E). reflexivity.
    + destruct (find_level p' l) as [y|] eqn:F.
      * rewrite find_level_update_first, E. reflexivity.
      * rewrite find_level_app_one. cbn [fst]. rewrite E.
        destruct (find_level p l); reflexivity.
Qed.

Lemma find_level_fold (p : Q) (cs l : list Level) :
  find_level p (fold_left apply_level cs l)
  = fold_left (change_at p) cs (find_level p l).
Proof.
  revert l. induction cs as [|c cs IH]; intros l; simpl; [reflexivity|].
  rewrite IH, find_level_apply_level. reflexivity.
Qed.

(** Two batches that act alike on every look-up give the same side. *)
Lemma apply_side_ext (r : bool) (cs cs' l : list Level) :
  distinct_prices l ->
  (forall p o, fold_left (change_at p) cs o = fold_left (change_at p) cs' o) ->
  apply_side r cs l = apply_side r cs' l.
Proof.
  intros Hd H. unfold apply_side. apply sort_levels_perm_eq.
  - apply find_level_ext; try (apply fold_apply_level_distinct, Hd).
    intros p. rewrite !find_level_fold. apply H.
  - apply fold_apply_level_distinct, Hd.
Qed.

Lemma update_first_hit (p q : Q) (l : list Level) :
  existsb (fun x => Qeq_bool (fst x) p) l = true ->
  exists x, In x (update_first p q l) /\ fst x == p /\ snd x = q.
Proof.
  induction l as [|y l IH]; simpl; [discriminate|].
  destruct (Qeq_bool (fst y) p) eqn:E; simpl.
  - intros _. exists (fst y, q). split; [now left|].
    split; [apply Qeq_bool_iff, E | reflexivity].
  - intros H. destruct (IH H) as [x [Hx Hq]]. exists x. split; [now right | exact Hq].
Qed.

Lemma update_first_in_other (p q : Q) (l : list Level) (x : Level) :
  ~ fst x == p -> (In x (update_first p q l) <-> In x l).
Proof.
  intros N. induction l as [|y l IH]; simpl; [tauto|].
  destruct (Qeq_bool (fst y) p) eqn:E; simpl.
  - apply Qeq_bool_iff in E. split; intros [H|H]; auto; exfalso; apply N.
    + subst x. exact E.
    + subst y. exact E.
  - rewrite IH. tauto.
Qed.

Lemma apply_level_in_other (c : Level) (l : list Level) (x : Level) :
  ~ fst x == fst c -> (In x (apply_level l c) <-> In x l).
Proof.
  destruct c as [p q]. cbn [fst]. intros N. unfold apply_level.
  destruct (Qeq_bool q 0).
  - rewrite filter_In. apply Qeq_bool_false in N. rewrite N. simpl. tauto.
  - destruct (existsb (fun x : Q * Q => Qeq_bool (fst x) p) l).
    + apply update_first_in_other, N.
    + rewrite in_app_iff. simpl. split; [|tauto].
      intros [H|[H|[]]]; [exact H|]. subst x. exfalso. apply N. reflexivity.
Qed.

Lemma fold_apply_level_in_other (cs l : list Level) (x : Level) :
  (forall c, In c cs -> ~ fst c == fst x) ->
  (In x (fold_left apply_level cs l) <-> In x l).
Proof.
  revert l. induction cs as [|c cs IH]; intros l H; simpl; [tauto|].
  rewrite IH by (intros c' Hc'; apply H; now right).
  apply apply_level_in_other. intros E. apply (H c); [now left | symmetry; exact E].
Qed.

Lemma apply_side_in_other (r : bool) (cs l : list Level) (x : Level) :
  (forall c, In c cs -> ~ fst c == fst x) ->
  (In x (apply_side r cs l) <-> In x l).
Proof.
  intros H. rewrite <- (fold_apply_level_in_other cs l x H). unfold apply_side.
  split; apply Permutation_in;
    [apply sort_levels_perm | apply Permutation_sym, sort_levels_perm].
Qed.

(** The look-up in a side after a batch, on a side without duplicate
    prices: the changes of the batch at that price, in their order. *)
Lemma find_level_apply_side (r : bool) (p : Q) (cs l : list Level) :
  distinct_prices l ->
  find_level p (apply_side r cs l)
  = fold_left (change_at p) cs (find_level p l).
Proof.
  intros Hd. unfold apply_side. rewrite <- find_level_fold.
  symmetry. apply find_level_perm.
  - apply Permutation_sym, sort_levels_perm.
  - apply fold_apply_level_distinct, Hd.
Qed.

(** ** [process_update] *)

Lemma process_update_in_order (d : Update) (mm : MarketMaker) :
  in_order mm d = true -> process_update d mm = (Ok tt, applied d mm).
Proof.
  unfold in_order, process_update, bind, get, last_update_id_plus_1.
  destruct mm as [s mp bs as_ [l|] fp];
    cbn [last_update_id first_processed]; [|discriminate].
  intros H.
  destruct fp; cbn -[Z.leb Z.geb Z.add apply_side]; rewrite Z.geb_leb.
  - apply andb_prop in H. destruct H as [H1 H2]. rewrite H1, H2. reflexivity.
  - rewrite H. reflexivity.
Qed.

Lemma process_update_not_in_order (d : Update) (mm : MarketMaker) :
  in_order mm d = false -> snd (process_update d mm) = mm.
Proof.
  unfold in_order, process_update, bind, get, last_update_id_plus_1.
  destruct mm as [s mp bs as_ [l|] fp];
    cbn [last_update_id first_processed].
  - intros H.
    destruct fp; cbn -[Z.leb Z.geb Z.add apply_side]; rewrite ?Z.geb_leb.
    + destruct (U d <=? l + 1)%Z; cbn [andb] in H; [rewrite H|]; reflexivity.
    + rewrite H. reflexivity.
  - intros _. destruct fp; reflexivity.
Qed.

Lemma process_update_cases (d : Update) (mm : MarketMaker) :
  snd (process_update d mm) = mm \/ snd (process_update d mm) = applied d mm.
Proof.
  destruct (in_order mm d) eqn:E.
  - right. now rewrite process_update_in_order.
  - left. now apply process_update_not_in_order.
Qed.

Lemma process_update_gap (d : Update) (mm : MarketMaker) (l : Z) :
  first_processed mm = true ->
  last_update_id mm = Some l ->
  (U d > l + 1)%Z ->
  process_update d mm = (Raise (ValueError l (U d)), mm).
Proof.
  unfold process_update, bind, get, last_update_id_plus_1, raise.
  destruct mm as [s mp bs as_ lid fp];
    cbn [last_update_id first_processed].
  intros -> -> Hgap.
  cbn -[Z.leb Z.geb Z.add apply_side].
  destruct (Z.leb_spec (U d) (l + 1)); [lia | reflexivity].
Qed.

Lemma process_update_dropped (d : Update) (mm : MarketMaker) (l : Z) :
  last_update_id mm = Some l ->
  in_order mm d = false ->
  (first_processed mm = true -> (U d <= l + 1)%Z) ->
  process_update d mm = (Ok tt, mm).
Proof.
  unfold in_order, process_update, bind, get, last_update_id_plus_1, ret.
  destruct mm as [s mp bs as_ lid fp];
    cbn [last_update_id first_processed].
  intros -> E HU.
  destruct fp; cbn -[Z.leb Z.geb Z.add apply_side]; rewrite ?Z.geb_leb.
  - specialize (HU eq_refl). apply Z.leb_le in HU. rewrite HU in *.
    cbn [andb] in E. rewrite E. reflexivity.
  - rewrite E. reflexivity.
Qed.

Lemma in_order_iff (d : Update) (mm : MarketMaker) (l : Z) :
  last_update_id mm = Some l ->
  in_order mm d = true <-> (U d <= l + 1 <= u d)%Z.
Proof.
  intros Hl. unfold in_order. rewrite Hl, andb_true_iff, !Z.leb_le. tauto.
Qed.

Lemma process_update_keeps (d : Update) (mm : MarketMaker) :
  mid_prices (snd (process_update d mm)) = mid_prices mm /\
  spread (snd (process_update d mm)) = spread mm.
Proof.
  destruct (process_update_cases d mm) as [-> | ->]; split; reflexivity.
Qed.

(** ** Claims *)

(** C1.  In the SYNCED state a diff with [U > last_update_id + 1] makes
    [process_update] raise the [ValueError] of line 55, whose message shows
    both [last_update_id] and the diff's [U], and the object after the call
    is the object before it: bids, asks, [last_update_id] and
    [first_processed] (hence the sync state) are all untouched. *)
Theorem gap_raises_and_keeps_book (mm : MarketMaker) (d : Update) (l : Z) :
  sync_state mm = SYNCED ->
  last_update_id mm = Some l ->
  (U d > l + 1)%Z ->
  process_update d mm = (Raise (ValueError l (U d)), mm).
Proof.
  intros Hs Hl Hgap. apply process_update_gap; [|exact Hl|exact Hgap].
  unfold sync_state in Hs.
  destruct (first_processed mm); [reflexivity|].
  destruct (last_update_id mm); discriminate.
Qed.

Lemma gap_raises_and_keeps_book_witness :
  process_update {| U := 1003; u := 1005; b := [(100, 2)]; a := [] |} synced_1001
  = (Raise (ValueError 1001 1003), synced_1001).
Proof.
  apply (gap_raises_and_keeps_book synced_1001
           {| U := 1003; u := 1005; b := [(100, 2)]; a := [] |} 1001%Z);
    [reflexivity | reflexivity | simpl; lia].
Defined.

Lemma apply_side_changes_applied (r : bool) (cs side : list Level) :
  changes_applied r cs side (apply_side r cs side).
Proof.
  split; [apply apply_side_sorted|]. split.
  - intros x H. apply apply_side_in_other, H.
  - intros Hd. split; [apply apply_side_distinct, Hd|].
    intros p. apply find_level_apply_side, Hd.
Qed.

(** C2.  In the AWAITING_FIRST_DIFF state [process_update] never raises;
    the state becomes SYNCED exactly when [U <= last_update_id + 1 <= u].
    In that case the diff is applied: each side holds the outcome of its
    change list (removals at quantity 0, upserts otherwise, sorted in the
    side's order), [last_update_id] becomes [u], and [spread] and
    [mid_prices] are untouched.  Otherwise the object is left as it was. *)
Theorem first_diff_accepted_iff_straddles (mm : MarketMaker) (d : Update) (l : Z) :
  sync_state mm = AWAITING_FIRST_DIFF ->
  last_update_id mm = Some l ->
  let mm' := snd (process_update d mm) in
  fst (process_update d mm) = Ok tt /\
  (sync_state mm' = SYNCED <-> (U d <= l + 1 <= u d)%Z) /\
  ((U d <= l + 1 <= u d)%Z ->
     changes_applied true (b d) (bids mm) (bids mm') /\
     changes_applied false (a d) (asks mm) (asks mm') /\
     bids mm' = apply_side true (b d) (bids mm) /\
     asks mm' = apply_side false (a d) (asks mm) /\
     last_update_id mm' = Some (u d) /\
     spread mm' = spread mm /\ mid_prices mm' = mid_prices mm) /\
  (~ (U d <= l + 1 <= u d)%Z ->
     mm' = mm /\ sync_state mm' = AWAITING_FIRST_DIFF).
Proof.
  intros Hs Hl.
  assert (Hfp : first_processed mm = false).
  { unfold sync_state in Hs. destruct (first_processed mm); [discriminate | reflexivity]. }
  destruct (in_order mm d) eqn:E.
  - pose proof (process_update_in_order d mm E) as Hp.
    unfold in_order in E. rewrite Hl in E.
    apply andb_prop in E. destruct E as [E1 E2].
    apply Z.leb_le in E1, E2.
    cbv zeta. rewrite Hp. cbn [fst snd].
    split; [reflexivity|]. split; [|split].
    + split; [intros _; lia | reflexivity].
    + intros _. cbn [applied bids asks last_update_id spread mid_prices].
      split; [apply apply_side_changes_applied|].
      split; [apply apply_side_changes_applied|].
      repeat split.
    + intros N. exfalso. apply N. lia.
  - assert (Hn : ~ (U d <= l + 1 <= u d)%Z).
    { unfold in_order in E. rewrite Hl in E.
      apply andb_false_iff in E. rewrite !Z.leb_gt in E. lia. }
    assert (Hp : process_update d mm = (Ok tt, mm)).
    { apply (process_update_dropped d mm l Hl E). congruence. }
    cbv zeta. rewrite Hp. cbn [fst snd].
    split; [reflexivity|]. split; [|split].
    + rewrite Hs. split; [discriminate | intros H; contradiction].
    + intros H; contradiction.
    + intros _. split; [reflexivity | exact Hs].
Qed.

Lemma first_diff_accepted_iff_straddles_witness :
  (let d := {| U := 990; u := 999; b := [(100, 0)]; a := [] |} in
   let mm' := snd (process_update d awaiting_1000) in
   fst (process_update d awaiting_1000) = Ok tt /\
   (sync_state mm' = SYNCED <-> (990 <= 1000 + 1 <= 999)%Z) /\
   mm' = awaiting_1000) /\
  (let mm := snd (process_snapshot plain_snapshot init) in
   let mm' := snd (process_update remove_bid_100 mm) in
   sync_state mm' = SYNCED /\
   bids mm' = [] /\ asks mm' = [(101, 1)] /\
   last_update_id mm' = Some 1001%Z /\
   find_level 100 (bids mm') = None /\
   (In (101, 1) (asks mm') <-> In (101, 1) (asks mm))) /\
  (let mm := snd (process_snapshot plain_snapshot init) in
   let mm' := snd (process_update add_first_levels mm) in
   bids mm' = [(100, 3); (99, 2)] /\ asks mm' = [(102, 1)] /\
   find_level 100 (bids mm') = Some (100, 3) /\
   find_level 101 (asks mm') = None).
Proof.
  split; [|split].
  - intros d mm'.
    destruct (first_diff_accepted_iff_straddles awaiting_1000 d 1000%Z)
      as [H1 [H2 [_ H4]]]; [reflexivity | reflexivity |].
    split; [exact H1|]. split; [exact H2|].
    apply H4. simpl. lia.
  - intros mm mm'.
    destruct (first_diff_accepted_iff_straddles mm remove_bid_100 1000%Z)
      as [_ [H2 [H3 _]]]; [reflexivity | reflexivity |].
    assert (Hio : (U remove_bid_100 <= 1000 + 1 <= u remove_bid_100)%Z)
      by (simpl; lia).
    destruct (H3 Hio) as [[_ [_ Cb]] [[_ [Fa _]] [Eb [Ea [El _]]]]].
    split; [apply H2, Hio|]. split; [exact Eb|]. split; [exact Ea|].
    split; [exact El|]. split.
    + destruct Cb as [_ Cb]; [split; [intros y [] | exact I]|].
      exact (Cb 100).
    + apply Fa. intros c [].
  - intros mm mm'.
    destruct (first_diff_accepted_iff_straddles mm add_first_levels 1000%Z)
      as [_ [_ [H3 _]]]; [reflexivity | reflexivity |].
    assert (Hio : (U add_first_levels <= 1000 + 1 <= u add_first_levels)%Z)
      by (simpl; lia).
    destruct (H3 Hio) as [[_ [_ Cb]] [[_ [_ Ca]] [Eb [Ea _]]]].
    split; [exact Eb|]. split; [exact Ea|]. split.
    + destruct Cb as [_ Cb]; [split; [intros y [] | exact I]|].
      exact (Cb 100).
    + destruct Ca as [_ Ca]; [split; [intros y [] | exact I]|].
      exact (Ca 101).
Defined.

Lemma apply_changes_book (d : Update) (mm : MarketMaker) :
  bids (snd (apply_changes d mm)) = apply_side true (b d) (bids mm) /\
  asks (snd (apply_changes d mm)) = apply_side false (a d) (asks mm).
Proof. split; reflexivity. Qed.

(** C3, as stated, fails: on a book that holds one price twice, the
    way the changes are cut into messages shows in the final asks, because
    the sort between two messages changes which of the two entries is the
    first one found. *)
Lemma batching_shows_with_duplicate_prices :
  let mm := snd (process_snapshot twice_100_snapshot init) in
  let ds := [ask_100_to_5; ask_100_to_7] in
  all_in_order mm ds = true /\
  asks (after_updates ds mm) = [(100, 5); (100, 7)] /\
  asks (snd (apply_changes (batch ds) mm)) = [(100, 2); (100, 7)] /\
  asks (after_updates ds mm) <> asks (snd (apply_changes (batch ds) mm)).
Proof.
  repeat split; try reflexivity.
  intros H. vm_compute in H. discriminate H.
Qed.

(** C3, amended.  From a book whose sides are sorted and hold no price
    twice, after any sequence of diffs that are each in order when
    processed, bids and asks are what one [apply_changes] with the
    concatenated change lists yields on the initial book. *)
Theorem batching_independent (mm : MarketMaker) (ds : list Update) :
  strictly_sorted_side true (bids mm) ->
  strictly_sorted_side false (asks mm) ->
  all_in_order mm ds = true ->
  bids (after_updates ds mm) = bids (snd (apply_changes (batch ds) mm)) /\
  asks (after_updates ds mm) = asks (snd (apply_changes (batch ds) mm)).
Proof.
  revert mm. induction ds as [|d ds IH]; intros mm Hb Ha Hio.
  - simpl. rewrite !apply_side_nil by assumption. split; reflexivity.
  - simpl in Hio. apply andb_prop in Hio. destruct Hio as [Hd Hds].
    rewrite (process_update_in_order d mm Hd) in Hds.
    change (after_updates (d :: ds) mm)
      with (after_updates ds (snd (process_update d mm))).
    rewrite (process_update_in_order d mm Hd).
    change (snd (Ok tt, applied d mm)) with (applied d mm) in *.
    pose proof (strictly_sorted_distinct _ _ Hb) as Db.
    pose proof (strictly_sorted_distinct _ _ Ha) as Da.
    destruct (IH (applied d mm)) as [IHb IHa].
    + apply apply_side_strictly, Db.
    + apply apply_side_strictly, Da.
    + exact Hds.
    + rewrite IHb, IHa.
      destruct (apply_changes_book (batch ds) (applied d mm)) as [-> ->].
      destruct (apply_changes_book (batch (d :: ds)) mm) as [-> ->].
      cbn [applied bids asks batch b a map concat].
      rewrite !apply_side_app by assumption. split; reflexivity.
Qed.

Lemma strictly_sorted_singleton (r : bool) (x : Level) :
  strictly_sorted_side r [x].
Proof. repeat constructor. Qed.

Lemma batching_independent_witness :
  let mm := snd (process_snapshot plain_snapshot init) in
  let ds := [remove_bid_100; add_levels] in
  bids (after_updates ds mm) = bids (snd (apply_changes (batch ds) mm)) /\
  asks (after_updates ds mm) = asks (snd (apply_changes (batch ds) mm)).
Proof.
  intros mm ds.
  apply (batching_independent mm ds);
    [apply strictly_sorted_singleton | apply strictly_sorted_singleton
    | reflexivity].
Defined.

(** ** The executable checks decide the level-set properties *)

Lemma distinct_pricesb_iff (l : list Level) :
  distinct_pricesb l = true <-> distinct_prices l.
Proof.
  induction l as [|x l IH]; simpl; [tauto|].
  rewrite andb_true_iff, forallb_forall, IH.
  split; intros [H1 H2]; (split; [|exact H2]); intros y Hy.
  - apply Qeq_bool_false, negb_true_iff, H1, Hy.
  - apply negb_true_iff, Qeq_bool_false, H1, Hy.
Qed.

Lemma no_zero_qtyb_iff (l : list Level) :
  no_zero_qtyb l = true <-> no_zero_qty l.
Proof.
  unfold no_zero_qtyb, no_zero_qty. rewrite forallb_forall.
  split; intros H x Hx.
  - apply Qeq_bool_false, negb_true_iff, H, Hx.
  - apply negb_true_iff, Qeq_bool_false, H, Hx.
Qed.

Lemma no_negative_qtyb_iff (l : list Level) :
  no_negative_qtyb l = true <-> no_negative_qty l.
Proof.
  unfold no_negative_qtyb, no_negative_qty. rewrite forallb_forall.
  split; intros H x Hx; apply Qle_bool_iff, H, Hx.
Qed.

Lemma sorted_sideb_iff (r : bool) (l : list Level) :
  sorted_sideb r l = true <-> sorted_side r l.
Proof.
  unfold sorted_side. induction l as [|x l IH]; simpl.
  - split; [constructor | reflexivity].
  - rewrite andb_true_iff, forallb_forall, IH. split.
    + intros [H1 H2]. constructor; [exact H2|].
      apply Forall_forall. intros y Hy. specialize (H1 y Hy).
      destruct r; simpl; apply Qle_bool_iff, H1.
    + intros H. inversion H as [|? ? Hs Hx]; subst. split; [|exact Hs].
      rewrite Forall_forall in Hx. intros y Hy. specialize (Hx y Hy).
      destruct r; simpl in Hx; apply Qle_bool_iff, Hx.
Qed.

(** ** Invariants of a run *)

Lemma after_updates_invariant (I : MarketMaker -> Prop) (ds : list Update) :
  (forall d mm, In d ds -> I mm -> I (applied d mm)) ->
  forall mm, I mm -> I (after_updates ds mm).
Proof.
  unfold after_updates. induction ds as [|d ds IH]; intros Hstep mm Hmm; simpl.
  - exact Hmm.
  - apply IH.
    + intros d' mm' Hd'. apply Hstep. now right.
    + destruct (process_update_cases d mm) as [-> | ->];
        [exact Hmm | apply Hstep; [now left | exact Hmm]].
Qed.

Lemma sort_levels_in (r : bool) (l : list Level) (x : Level) :
  In x (sort_levels r l) <-> In x l.
Proof.
  split; apply Permutation_in;
    [apply sort_levels_perm | apply Permutation_sym, sort_levels_perm].
Qed.

(** C4, as stated, fails: [process_snapshot] stores the snapshot's
    levels as they come, and [apply_changes] stores every non-zero
    quantity, so a price listed twice or a zero quantity in the snapshot,
    and a negative quantity in a diff, all end up in the book. *)
Lemma level_set_invariant_fails :
  (let mm := snd (process_snapshot twice_100_snapshot init) in
   asks mm = [(100, 1); (100, 2)] /\ book_ok mm = false) /\
  (let mm := snd (process_snapshot zero_qty_snapshot init) in
   bids mm = [(100, 0)] /\ book_ok mm = false) /\
  (let mm := after_updates [negative_qty_diff]
               (snd (process_snapshot plain_snapshot init)) in
   in_order (snd (process_snapshot plain_snapshot init)) negative_qty_diff = true /\
   bids mm = [(100, -(1))] /\ book_ok mm = false).
Proof. repeat split. Qed.

(** C4, amended.  After [process_snapshot] and any sequence of
    [process_update] calls, bids are in descending and asks in ascending
    price order.  A side has no price twice if the snapshot's side had none,
    no zero quantity if the snapshot's side had none, and no negative
    quantity if neither the snapshot's side nor the change list of any diff
    for that side had one.  With all of these the executable check
    [book_ok] holds. *)
Theorem level_set_invariant (mm0 : MarketMaker) (s : Snapshot) (ds : list Update) :
  let mm := after_updates ds (snd (process_snapshot s mm0)) in
  (sorted_side true (bids mm) /\ sorted_side false (asks mm)) /\
  (distinct_prices (snap_bids s) -> distinct_prices (bids mm)) /\
  (distinct_prices (snap_asks s) -> distinct_prices (asks mm)) /\
  (no_zero_qty (snap_bids s) -> no_zero_qty (bids mm)) /\
  (no_zero_qty (snap_asks s) -> no_zero_qty (asks mm)) /\
  (no_negative_qty (snap_bids s) ->
   Forall (fun d => no_negative_qty (b d)) ds -> no_negative_qty (bids mm)) /\
  (no_negative_qty (snap_asks s) ->
   Forall (fun d => no_negative_qty (a d)) ds -> no_negative_qty (asks mm)) /\
  (distinct_prices (snap_bids s) -> distinct_prices (snap_asks s) ->
   no_zero_qty (snap_bids s) -> no_zero_qty (snap_asks s) ->
   no_negative_qty (snap_bids s) -> no_negative_qty (snap_asks s) ->
   Forall (fun d => no_negative_qty (b d) /\ no_negative_qty (a d)) ds ->
   book_ok mm = true).
Proof.
  intros mm. subst mm.
  set (mm1 := snd (process_snapshot s mm0)).
  set (mm := after_updates ds mm1).
  assert (Eb : bids mm1 = sort_levels true (snap_bids s)) by reflexivity.
  assert (Ea : asks mm1 = sort_levels false (snap_asks s)) by reflexivity.
  assert (Hsorted : sorted_side true (bids mm) /\ sorted_side false (asks mm)).
  { apply (after_updates_invariant
             (fun m => sorted_side true (bids m) /\ sorted_side false (asks m))).
    - intros d m _ _. split; apply apply_side_sorted.
    - cbv beta. rewrite Eb, Ea. split; apply sort_levels_sorted. }
  assert (Hdb : distinct_prices (snap_bids s) -> distinct_prices (bids mm)).
  { intros H. apply (after_updates_invariant (fun m => distinct_prices (bids m))).
    - intros d m _. apply apply_side_distinct.
    - cbv beta. rewrite Eb. eapply distinct_prices_perm;
        [apply Permutation_sym, sort_levels_perm | exact H]. }
  assert (Hda : distinct_prices (snap_asks s) -> distinct_prices (asks mm)).
  { intros H. apply (after_updates_invariant (fun m => distinct_prices (asks m))).
    - intros d m _. apply apply_side_distinct.
    - cbv beta. rewrite Ea. eapply distinct_prices_perm;
        [apply Permutation_sym, sort_levels_perm | exact H]. }
  assert (Hzb : no_zero_qty (snap_bids s) -> no_zero_qty (bids mm)).
  { intros H. apply (after_updates_invariant (fun m => no_zero_qty (bids m))).
    - intros d m _ Hm y Hy.
      destruct (apply_side_in _ _ _ _ Hy) as [Hy'|[c [_ [E Hc]]]];
        [apply Hm, Hy' | rewrite E; exact Hc].
    - cbv beta. rewrite Eb. intros y Hy. apply H, (sort_levels_in true), Hy. }
  assert (Hza : no_zero_qty (snap_asks s) -> no_zero_qty (asks mm)).
  { intros H. apply (after_updates_invariant (fun m => no_zero_qty (asks m))).
    - intros d m _ Hm y Hy.
      destruct (apply_side_in _ _ _ _ Hy) as [Hy'|[c [_ [E Hc]]]];
        [apply Hm, Hy' | rewrite E; exact Hc].
    - cbv beta. rewrite Ea. intros y Hy. apply H, (sort_levels_in false), Hy. }
  assert (Hnb : no_negative_qty (snap_bids s) ->
                Forall (fun d => no_negative_qty (b d)) ds ->
                no_negative_qty (bids mm)).
  { intros H F. rewrite Forall_forall in F.
    apply (after_updates_invariant (fun m => no_negative_qty (bids m))).
    - intros d m Hd Hm y Hy.
      destruct (apply_side_in _ _ _ _ Hy) as [Hy'|[c [Hc [E _]]]];
        [apply Hm, Hy' | rewrite E; apply (F d Hd), Hc].
    - cbv beta. rewrite Eb. intros y Hy. apply H, (sort_levels_in true), Hy. }
  assert (Hna : no_negative_qty (snap_asks s) ->
                Forall (fun d => no_negative_qty (a d)) ds ->
                no_negative_qty (asks mm)).
  { intros H F. rewrite Forall_forall in F.
    apply (after_updates_invariant (fun m => no_negative_qty (asks m))).
    - intros d m Hd Hm y Hy.
      destruct (apply_side_in _ _ _ _ Hy) as [Hy'|[c [Hc [E _]]]];
        [apply Hm, Hy' | rewrite E; apply (F d Hd), Hc].
    - cbv beta. rewrite Ea. intros y Hy. apply H, (sort_levels_in false), Hy. }
  repeat (split; [assumption|]).
  intros D1 D2 Z1 Z2 N1 N2 F.
  unfold book_ok, side_ok. rewrite !andb_true_iff.
  rewrite !distinct_pricesb_iff, !no_zero_qtyb_iff, !no_negative_qtyb_iff,
    !sorted_sideb_iff.
  destruct Hsorted as [Sb Sa].
  repeat split; auto.
  - apply Hnb; [exact N1|]. eapply Forall_impl; [|exact F]. simpl; tauto.
  - apply Hna; [exact N2|]. eapply Forall_impl; [|exact F]. simpl; tauto.
Qed.

Lemma level_set_invariant_witness :
  let mm := after_updates [remove_bid_100; add_levels]
              (snd (process_snapshot plain_snapshot init)) in
  sorted_side true (bids mm) /\ sorted_side false (asks mm) /\
  distinct_prices (bids mm) /\ distinct_prices (asks mm) /\
  no_zero_qty (bids mm) /\ no_zero_qty (asks mm) /\
  no_negative_qty (bids mm) /\ no_negative_qty (asks mm) /\
  book_ok mm = true.
Proof.
  intros mm.
  destruct (level_set_invariant init plain_snapshot [remove_bid_100; add_levels])
    as [[Sb Sa] [Db [Da [Zb [Za [Nb [Na Ok_]]]]]]].
  assert (D1 : distinct_prices (snap_bids plain_snapshot))
    by (apply distinct_pricesb_iff; reflexivity).
  assert (D2 : distinct_prices (snap_asks plain_snapshot))
    by (apply distinct_pricesb_iff; reflexivity).
  assert (Z1 : no_zero_qty (snap_bids plain_snapshot))
    by (apply no_zero_qtyb_iff; reflexivity).
  assert (Z2 : no_zero_qty (snap_asks plain_snapshot))
    by (apply no_zero_qtyb_iff; reflexivity).
  assert (N1 : no_negative_qty (snap_bids plain_snapshot))
    by (apply no_negative_qtyb_iff; reflexivity).
  assert (N2 : no_negative_qty (snap_asks plain_snapshot))
    by (apply no_negative_qtyb_iff; reflexivity).
  assert (Fb : Forall (fun d => no_negative_qty (b d)) [remove_bid_100; add_levels])
    by (repeat constructor; apply no_negative_qtyb_iff; reflexivity).
  assert (Fa : Forall (fun d => no_negative_qty (a d)) [remove_bid_100; add_levels])
    by (repeat constructor; apply no_negative_qtyb_iff; reflexivity).
  assert (F : Forall (fun d => no_negative_qty (b d) /\ no_negative_qty (a d))
                [remove_bid_100; add_levels])
    by (repeat constructor; apply no_negative_qtyb_iff; reflexivity).
  exact (conj Sb (conj Sa (conj (Db D1) (conj (Da D2) (conj (Zb Z1)
           (conj (Za Z2) (conj (Nb N1 Fb) (conj (Na N2 Fa)
              (Ok_ D1 D2 Z1 Z2 N1 N2 F))))))))).
Defined.

(** ** One message *)

Lemma update_spread_spread (v : Q) (mm : MarketMaker) :
  spread (snd (update_spread v mm)) = spread_for v.
Proof. reflexivity. Qed.

Lemma process_update_set_spread (s0 : Q) (d : Update) (mm : MarketMaker) :
  process_update d (set_spread s0 mm)
  = (fst (process_update d mm), set_spread s0 (snd (process_update d mm))).
Proof.
  unfold process_update, bind, get, last_update_id_plus_1, raise, ret.
  destruct mm as [s mp bs as_ [l|] fp]; destruct fp;
    cbn -[Z.leb Z.geb Z.add apply_side]; try reflexivity.
  - destruct (U d <=? l + 1)%Z; [|reflexivity].
    destruct (u d >=? l + 1)%Z; reflexivity.
  - destruct ((U d <=? l + 1)%Z && (u d >=? l + 1)%Z); reflexivity.
Qed.

Section Messages.

Variable uniform_filter1d_5 : list Q -> list Q.
Variable np_std : list Q -> Q.

Lemma handle_message_ok (d : Update) (mm mm1 : MarketMaker) :
  process_update d mm = (Ok tt, mm1) ->
  handle_message uniform_filter1d_5 np_std (DepthUpdate d) mm = after_process_update uniform_filter1d_5 np_std mm1.
Proof.
  intros H.
  unfold handle_message, try_except,
    on_depth_update, bind at 1.
  rewrite H. unfold after_process_update, observation.
  unfold bind, get, modify, ret.
  destruct mm1 as [s mp [|bb bs] [|ba as_] lid [|]];
    cbn -[Nat.ltb last_20 Qdiv Qplus Qmult]; try reflexivity.
  destruct (Nat.ltb 20 (length (mp ++ [(fst bb + fst ba) / 2]))); reflexivity.
Qed.

Lemma handle_message_raise (d : Update) (mm mm1 : MarketMaker) (e : exn) :
  process_update d mm = (Raise e, mm1) ->
  handle_message uniform_filter1d_5 np_std (DepthUpdate d) mm
  = (match e with
     | ValueError l f => Raise (ValueError l f)
     | TypeError => Ok None
     end, mm1).
Proof.
  intros H.
  unfold handle_message, try_except,
    on_depth_update, bind at 1.
  rewrite H. destruct e; reflexivity.
Qed.

End Messages.

(** ** Spread and quote *)

Ltac Qltb_case x y :=
  let E := fresh "E" in
  destruct (Qltb x y) eqn:E;
  [apply Qltb_true in E | apply Qltb_false in E].

Ltac Qltb_cases :=
  repeat match goal with
         | |- context [Qltb ?x ?y] => Qltb_case x y
         end.

(** Case analysis on the comparisons of [py_max MIN_SPREAD (py_min
    MAX_SPREAD x)], the inner one first. *)
Ltac spread_cases x :=
  unfold py_max, py_min, clamp, MIN_SPREAD, MAX_SPREAD;
  Qltb_case x (1 # 100); Qltb_cases.

Lemma spread_for_clamp (v : Q) :
  spread_for v == clamp ((3 # 1000) * v) MIN_SPREAD MAX_SPREAD.
Proof.
  change (spread_for v)
    with (py_max MIN_SPREAD (py_min MAX_SPREAD ((3 # 1000) * v))).
  spread_cases ((3 # 1000) * v); lra.
Qed.

Lemma spread_for_bounds (v : Q) :
  MIN_SPREAD <= spread_for v /\ spread_for v <= MAX_SPREAD.
Proof.
  change (spread_for v)
    with (py_max MIN_SPREAD (py_min MAX_SPREAD ((3 # 1000) * v))).
  spread_cases ((3 # 1000) * v); lra.
Qed.

Lemma spread_for_monotone (v w : Q) :
  v <= w -> spread_for v <= spread_for w.
Proof.
  intros H.
  change (spread_for v)
    with (py_max MIN_SPREAD (py_min MAX_SPREAD ((3 # 1000) * v))).
  change (spread_for w)
    with (py_max MIN_SPREAD (py_min MAX_SPREAD ((3 # 1000) * w))).
  spread_cases ((3 # 1000) * v); Qltb_case ((3 # 1000) * w) (1 # 100);
    Qltb_cases; lra.
Qed.

(** C8.  The spread that [update_spread] stores for a volatility [v] is
    [clamp(0.003 * v, MIN_SPREAD, MAX_SPREAD)] with [MIN_SPREAD = 0.001] and
    [MAX_SPREAD = 0.01]; it does not decrease when [v] grows and lies in
    [[0.001, 0.01]]. *)
Theorem update_spread_clamps (mm : MarketMaker) (v w : Q) :
  0 <= v -> v <= w ->
  let spreadFor := fun x => spread (snd (update_spread x mm)) in
  spreadFor v == clamp ((3 # 1000) * v) (1 # 1000) (1 # 100) /\
  spreadFor v <= spreadFor w /\
  (1 # 1000) <= spreadFor v /\ spreadFor v <= (1 # 100).
Proof.
  intros _ Hvw spreadFor. unfold spreadFor.
  rewrite !update_spread_spread.
  split; [apply spread_for_clamp|].
  split; [apply spread_for_monotone, Hvw|].
  apply spread_for_bounds.
Qed.

Lemma update_spread_clamps_witness :
  let spreadFor := fun x => spread (snd (update_spread x init)) in
  spreadFor 1 == clamp ((3 # 1000) * 1) (1 # 1000) (1 # 100) /\
  spreadFor 1 <= spreadFor 5 /\
  (1 # 1000) <= spreadFor 1 /\ spreadFor 1 <= (1 # 100).
Proof.
  apply (update_spread_clamps init 1 5); unfold Qle; simpl; lia.
Defined.

(** C9, as stated, fails: for a mid-price that is not positive the
    quote is not around the mid-price.  At mid-price 0 both quotes are 0,
    and at a negative mid-price the order is reversed. *)
Lemma quote_not_around_nonpositive_mid :
  ~ (our_bid 0 (1 # 100) < 0 /\ 0 < our_ask 0 (1 # 100)) /\
  ~ (our_bid (-(100)) (1 # 100) < -(100) /\ -(100) < our_ask (-(100)) (1 # 100)).
Proof.
  split; intros [H _]; vm_compute in H; discriminate H.
Qed.

(** C9, amended.  The quote is [mid * (1 - spread/2)] and
    [mid * (1 + spread/2)], so [ask - bid = mid * spread] in exact
    arithmetic for every mid-price and spread; [bid < mid < ask] holds for
    every positive mid-price and positive spread. *)
Theorem quote_around_positive_mid (mid s : Q) :
  our_bid mid s = mid * (1 - s / 2) /\
  our_ask mid s = mid * (1 + s / 2) /\
  our_ask mid s - our_bid mid s == mid * s /\
  (0 < mid -> 0 < s -> our_bid mid s < mid /\ mid < our_ask mid s).
Proof.
  unfold our_bid, our_ask.
  split; [reflexivity|]. split; [reflexivity|]. split; [field|].
  intros Hm Hs.
  assert (H : 0 < mid * (s / 2)).
  { apply Qmult_lt_0_compat; [exact Hm|].
    unfold Qdiv. apply Qmult_lt_0_compat; [exact Hs | reflexivity]. }
  assert (Eb : mid * (1 - s / 2) == mid - mid * (s / 2)) by ring.
  assert (Ea : mid * (1 + s / 2) == mid + mid * (s / 2)) by ring.
  rewrite Eb, Ea. remember (mid * (s / 2)) as t. clear Heqt Eb Ea.
  split; lra.
Qed.

Lemma quote_around_positive_mid_witness :
  our_ask (201 # 2) (1 # 100) - our_bid (201 # 2) (1 # 100)
    == (201 # 2) * (1 # 100) /\
  our_bid (201 # 2) (1 # 100) < 201 # 2 /\
  201 # 2 < our_ask (201 # 2) (1 # 100).
Proof.
  destruct (quote_around_positive_mid (201 # 2) (1 # 100)) as [_ [_ [H1 H2]]].
  split; [exact H1|]. apply H2; reflexivity.
Defined.

(** ** [process_snapshot] in any state *)

(** C7, as stated, fails: [process_snapshot] has no state check; on a
    book that is SYNCED, and on one that awaits its first diff, it returns
    normally and overwrites the book. *)
Lemma second_snapshot_is_accepted :
  sync_state synced_1001 = SYNCED /\
  process_snapshot plain_snapshot synced_1001
  = (Ok tt, {| spread := INITIAL_SPREAD; mid_prices := [];
               bids := [(100, 1)]; asks := [(101, 1)];
               last_update_id := Some 1000%Z; first_processed := true |}) /\
  sync_state awaiting_1000 = AWAITING_FIRST_DIFF /\
  fst (process_snapshot plain_snapshot awaiting_1000) = Ok tt.
Proof. repeat split. Qed.

(** C7, amended.  [process_snapshot] succeeds in every state: it
    replaces bids and asks by the snapshot's levels, sorted per side, sets
    [last_update_id] to the snapshot's [lastUpdateId] and leaves
    [first_processed], [spread] and [mid_prices] as they are; so a book that
    was SYNCED stays SYNCED and any other book awaits its first diff. *)
Theorem process_snapshot_in_any_state (s : Snapshot) (mm : MarketMaker) :
  process_snapshot s mm
  = (Ok tt, {| spread := spread mm; mid_prices := mid_prices mm;
               bids := sort_levels true (snap_bids s);
               asks := sort_levels false (snap_asks s);
               last_update_id := Some (lastUpdateId s);
               first_processed := first_processed mm |}) /\
  sync_state (snd (process_snapshot s mm))
  = (if first_processed mm then SYNCED else AWAITING_FIRST_DIFF).
Proof.
  split; [reflexivity|].
  unfold sync_state. simpl. destruct (first_processed mm); reflexivity.
Qed.

(** ** Mid-price series, volatility gate and quotes *)

Lemma sorted_side_head (r : bool) (x : Level) (l : list Level) :
  sorted_side r (x :: l) -> forall y, In y (x :: l) -> price_before r x y.
Proof.
  intros H y Hy. inversion H as [|? ? _ Hx]; subst.
  destruct Hy as [<-|Hy].
  - destruct r; simpl; apply Qle_refl.
  - rewrite Forall_forall in Hx. apply Hx, Hy.
Qed.

Lemma last_20_length (l : list Q) :
  (20 <= length l)%nat -> length (last_20 l) = 20%nat.
Proof. intros H. unfold last_20. rewrite length_skipn. lia. Qed.

Lemma relative_returns_cons (x y : Q) (l : list Q) :
  relative_returns (x :: y :: l) = ((y - x) / x) :: relative_returns (y :: l).
Proof. reflexivity. Qed.

Lemma relative_returns_length (prices : list Q) :
  length (relative_returns prices) = (length prices - 1)%nat.
Proof.
  induction prices as [|x [|y l] IH]; [reflexivity | reflexivity|].
  rewrite relative_returns_cons. cbn [length] in *. rewrite IH. lia.
Qed.

(** The [i]-th return is the relative change from the [i]-th to the next
    price. *)
Lemma relative_returns_nth (prices : list Q) (i : nat) :
  (S i < length prices)%nat ->
  nth i (relative_returns prices) 0
  = (nth (S i) prices 0 - nth i prices 0) / nth i prices 0.
Proof.
  revert i. induction prices as [|x [|y l] IH]; intros i H.
  - cbn [length] in H. lia.
  - cbn [length] in H. lia.
  - rewrite relative_returns_cons. destruct i as [|i]; [reflexivity|].
    cbn [length] in H.
    change (nth (S i) ((y - x) / x :: relative_returns (y :: l)) 0)
      with (nth i (relative_returns (y :: l)) 0).
    rewrite IH by (cbn [length]; lia). reflexivity.
Qed.

(** The window of a series that has just received [mid] and holds more than
    20 values: its last 20, ending in [mid]. *)
Lemma last_20_snoc (mp : list Q) (mid : Q) :
  (20 < length (mp ++ [mid]))%nat ->
  (exists recent, last_20 (mp ++ [mid]) = recent ++ [mid]) /\
  (exists older, mp ++ [mid] = older ++ last_20 (mp ++ [mid])) /\
  length (last_20 (mp ++ [mid])) = 20%nat.
Proof.
  intros H. rewrite last_length in H.
  split; [|split].
  - exists (skipn (length (mp ++ [mid]) - 20) mp).
    unfold last_20. rewrite skipn_app, last_length.
    replace (S (length mp) - 20 - length mp)%nat with 0%nat by lia.
    reflexivity.
  - exists (firstn (length (mp ++ [mid]) - 20) (mp ++ [mid])).
    unfold last_20. symmetry. apply firstn_skipn.
  - apply last_20_length. rewrite last_length. lia.
Qed.

Section MessageClaims.

Variable uniform_filter1d_5 : list Q -> list Q.
Variable np_std : list Q -> Q.

Lemma after_process_update_state (mm1 : MarketMaker) :
  let mm' := snd (after_process_update uniform_filter1d_5 np_std mm1) in
  bids mm' = bids mm1 /\ asks mm' = asks mm1 /\
  last_update_id mm' = last_update_id mm1 /\
  first_processed mm' = first_processed mm1 /\
  mid_prices mm' = mid_prices mm1 ++
                   match observation mm1 with Some mid => [mid] | None => [] end.
Proof.
  unfold after_process_update. destruct (observation mm1) as [mid|].
  - cbv zeta. destruct (Nat.ltb 20 (length (mid_prices mm1 ++ [mid])));
      repeat split.
  - simpl. rewrite app_nil_r. repeat split.
Qed.

(** The outcome and the spread in terms of the number of observations. *)
Lemma after_process_update_gate (mm1 : MarketMaker) :
  let r := after_process_update uniform_filter1d_5 np_std mm1 in
  let n := length (mid_prices (snd r)) in
  match observation mm1 with
  | None => fst r = Ok None /\ spread (snd r) = spread mm1
  | Some mid =>
      if Nat.ltb 20 n then
        fst r = Ok (Some {|
          log_our_bid := our_bid mid (spread (snd r));
          log_our_ask := our_ask mid (spread (snd r));
          log_spread_percent := spread (snd r) * 100;
          log_best_bid := fst (hd (0, 0) (bids mm1));
          log_best_ask := fst (hd (0, 0) (asks mm1)) |}) /\
        spread (snd r)
        = spread_for (volatility_of uniform_filter1d_5 np_std
                        (mid_prices (snd r)))
      else fst r = Ok None /\ spread (snd r) = spread mm1
  end.
Proof.
  unfold after_process_update. destruct (observation mm1) as [mid|].
  - cbv zeta.
    destruct (Nat.ltb 20 (length (mid_prices mm1 ++ [mid]))) eqn:E;
      cbn [snd fst mid_prices set_spread set_mid_prices spread];
      rewrite E; split; reflexivity.
  - split; reflexivity.
Qed.

(** C5, amended.  One mid-price, [(bids[0][0] + asks[0][0]) / 2], is
    appended for every depth update that [process_update] handles without
    raising while the book is synced afterwards and has both sides
    non-empty.  That is so for an applied diff, where the two prices are
    the highest bid and the lowest ask of the updated book, and also for a
    diff dropped as stale in the SYNCED state, which appends the mid-price
    of the unchanged book once more.  A diff dropped while the first diff
    is awaited, and a diff that raises the gap error, append nothing. *)
Theorem mid_price_per_handled_diff (mm : MarketMaker) (d : Update) (l : Z) :
  last_update_id mm = Some l ->
  let mm' := snd (handle_message uniform_filter1d_5 np_std (DepthUpdate d) mm) in
  ((U d <= l + 1 <= u d)%Z ->
     bids mm' = apply_side true (b d) (bids mm) /\
     asks mm' = apply_side false (a d) (asks mm) /\
     match bids mm', asks mm' with
     | bb :: _, ba :: _ =>
         mid_prices mm' = mid_prices mm ++ [(fst bb + fst ba) / 2] /\
         (forall x, In x (bids mm') -> fst x <= fst bb) /\
         (forall x, In x (asks mm') -> fst ba <= fst x)
     | _, _ => mid_prices mm' = mid_prices mm
     end) /\
  (sync_state mm = SYNCED -> (U d <= l + 1)%Z -> (u d < l + 1)%Z ->
     bids mm' = bids mm /\ asks mm' = asks mm /\
     last_update_id mm' = Some l /\
     match bids mm, asks mm with
     | bb :: _, ba :: _ =>
         mid_prices mm' = mid_prices mm ++ [(fst bb + fst ba) / 2]
     | _, _ => mid_prices mm' = mid_prices mm
     end) /\
  (sync_state mm = AWAITING_FIRST_DIFF -> ~ (U d <= l + 1 <= u d)%Z ->
     mid_prices mm' = mid_prices mm) /\
  (sync_state mm = SYNCED -> (U d > l + 1)%Z ->
     mid_prices mm' = mid_prices mm).
Proof.
  intros Hl mm'. subst mm'.
  assert (Hsync : sync_state mm = SYNCED -> first_processed mm = true).
  { unfold sync_state. destruct (first_processed mm); [reflexivity|].
    rewrite Hl. discriminate. }
  assert (Hawait : sync_state mm = AWAITING_FIRST_DIFF ->
                   first_processed mm = false).
  { unfold sync_state. destruct (first_processed mm); [discriminate | reflexivity]. }
  split; [|split; [|split]].
  - intros Hio. apply (in_order_iff d mm l Hl) in Hio.
    rewrite (handle_message_ok _ _ d mm _ (process_update_in_order d mm Hio)).
    destruct (after_process_update_state (applied d mm))
      as [Eb [Ea [_ [_ Em]]]].
    rewrite Eb, Ea, Em. cbn [applied bids asks mid_prices].
    split; [reflexivity|]. split; [reflexivity|].
    pose proof (apply_side_sorted true (b d) (bids mm)) as Sb.
    pose proof (apply_side_sorted false (a d) (asks mm)) as Sa.
    unfold observation. cbn [applied bids asks first_processed].
    destruct (apply_side true (b d) (bids mm)) as [|bb bs];
      [apply app_nil_r|].
    destruct (apply_side false (a d) (asks mm)) as [|ba as_];
      [apply app_nil_r|].
    split; [reflexivity|]. split.
    + intros x Hx. exact (sorted_side_head true bb bs Sb x Hx).
    + intros x Hx. exact (sorted_side_head false ba as_ Sa x Hx).
  - intros Hs HU Hu. specialize (Hsync Hs).
    assert (E : in_order mm d = false).
    { apply not_true_iff_false. rewrite (in_order_iff d mm l Hl). lia. }
    rewrite (handle_message_ok _ _ d mm _
               (process_update_dropped d mm l Hl E (fun _ => HU))).
    destruct (after_process_update_state mm) as [Eb [Ea [El [_ Em]]]].
    rewrite Eb, Ea, El, Em. repeat (split; [first [reflexivity | exact Hl]|]).
    unfold observation. rewrite Hsync.
    destruct (bids mm) as [|bb bs]; [apply app_nil_r|].
    destruct (asks mm) as [|ba as_]; [apply app_nil_r | reflexivity].
  - intros Hs Hn. specialize (Hawait Hs).
    assert (E : in_order mm d = false).
    { apply not_true_iff_false. rewrite (in_order_iff d mm l Hl). exact Hn. }
    rewrite (handle_message_ok _ _ d mm _
               (process_update_dropped d mm l Hl E
                  (fun H => False_ind _ (diff_false_true
                              (eq_trans (eq_sym Hawait) H))))).
    destruct (after_process_update_state mm) as [_ [_ [_ [_ Em]]]].
    rewrite Em. unfold observation. rewrite Hawait.
    destruct (bids mm) as [|bb bs]; [apply app_nil_r|].
    destruct (asks mm) as [|ba as_]; apply app_nil_r.
  - intros Hs Hgap. specialize (Hsync Hs).
    rewrite (handle_message_raise _ _ d mm _ _
               (process_update_gap d mm l Hsync Hl Hgap)).
    reflexivity.
Qed.

Lemma handle_message_cases (msg : message) (mm : MarketMaker) :
  let r := handle_message uniform_filter1d_5 np_std msg mm in
  (mid_prices (snd r) = mid_prices mm /\ spread (snd r) = spread mm /\
   forall q, fst r <> Ok (Some q)) \/
  (exists mm1,
      mid_prices mm1 = mid_prices mm /\ spread mm1 = spread mm /\
      r = after_process_update uniform_filter1d_5 np_std mm1).
Proof.
  destruct msg as [d|]; cbv zeta.
  - destruct (process_update d mm) as [[[]|e] mm1] eqn:E.
    + right. exists mm1.
      destruct (process_update_keeps d mm) as [Hm Hs].
      rewrite E in Hm, Hs. cbn [snd] in Hm, Hs.
      split; [exact Hm|]. split; [exact Hs|].
      apply handle_message_ok, E.
    + left. rewrite (handle_message_raise _ _ d mm mm1 e E).
      destruct (process_update_keeps d mm) as [Hm Hs].
      rewrite E in Hm, Hs. cbn [snd] in Hm, Hs.
      split; [exact Hm|]. split; [exact Hs|].
      intros q. destruct e; discriminate.
  - left. repeat split. intros q. discriminate.
Qed.

(** C6, amended.  Each message appends at most one observation.  As
    long as at most 20 observations exist, the 20th included, no estimate
    is computed: no quote is logged and the spread is left as it is.  A
    message that appends an observation when at least 21 exist computes
    the estimate from the last 20 of them, updates the spread from it and
    logs a quote; so the first estimate appears with the 21st observation,
    one after the 20-element window fills. *)
Theorem estimate_from_21st_observation (msg : message) (mm : MarketMaker) :
  let r := handle_message uniform_filter1d_5 np_std msg mm in
  let n := length (mid_prices (snd r)) in
  (mid_prices (snd r) = mid_prices mm \/
   exists mid, mid_prices (snd r) = mid_prices mm ++ [mid]) /\
  ((n <= 20)%nat ->
     (forall q, fst r <> Ok (Some q)) /\ spread (snd r) = spread mm) /\
  (n = length (mid_prices mm) ->
     (forall q, fst r <> Ok (Some q)) /\ spread (snd r) = spread mm) /\
  ((21 <= n)%nat -> n = S (length (mid_prices mm)) ->
     (exists q, fst r = Ok (Some q)) /\
     spread (snd r)
     = spread_for (volatility_of uniform_filter1d_5 np_std (mid_prices (snd r))) /\
     length (last_20 (mid_prices (snd r))) = 20%nat).
Proof.
  cbv zeta.
  destruct (handle_message_cases msg mm) as [[Hm [Hs Hq]] | [mm1 [Hm [Hs ->]]]].
  - rewrite Hm. split; [left; reflexivity|].
    split; [intros _; split; assumption|].
    split; [intros _; split; assumption|].
    intros _ Hn. lia.
  - pose proof (after_process_update_gate mm1) as G.
    destruct (after_process_update_state mm1) as [_ [_ [_ [_ Em]]]].
    cbv zeta in G, Em.
    set (r := after_process_update uniform_filter1d_5 np_std mm1) in *.
    rewrite Hm in Em.
    destruct (observation mm1) as [mid|].
    + assert (Hlen : length (mid_prices (snd r)) = S (length (mid_prices mm)))
        by (rewrite Em; apply last_length).
      split; [right; exists mid; exact Em|].
      destruct (Nat.ltb_spec 20 (length (mid_prices (snd r)))) as [L|L].
      * destruct G as [G1 G2].
        split; [intros; lia|]. split; [intros; lia|].
        intros _ _. split; [eexists; exact G1|]. split; [exact G2|].
        apply last_20_length. lia.
      * destruct G as [G1 G2]. rewrite <- Hs.
        split; [intros _; split; [intros q; rewrite G1; discriminate | exact G2]|].
        split; [intros; lia | intros; lia].
    + destruct G as [G1 G2]. rewrite app_nil_r in Em. rewrite <- Hs.
      split; [left; exact Em|].
      split; [intros _; split; [intros q; rewrite G1; discriminate | exact G2]|].
      split; [intros _; split; [intros q; rewrite G1; discriminate | exact G2]|].
      intros _ Hn. rewrite Em in Hn. lia.
Qed.

(** C10.  Every quote that is logged uses the spread that
    [update_spread] has just stored from the volatility of the current
    window.  The window is the 20 most recent mid-prices, the one observed
    by this message last; the estimate is [np.std] of the relative returns
    between consecutive values of [uniform_filter1d] of that window; the
    spread stored and shown is what [update_spread] makes of that estimate,
    the clamp of [0.003 * estimate], and lies in [[MIN_SPREAD, MAX_SPREAD]].
    (What the estimate is, is stated where no smoothed price that is
    divided by is zero; there numpy yields an infinity or NaN, which is
    outside the model.)  The quote and the object after the message
    are the same whatever the spread was before the message, the initial
    0.002 included. *)
Theorem quote_uses_fresh_spread (msg : message) (mm : MarketMaker) (q : QuoteLog) :
  fst (handle_message uniform_filter1d_5 np_std msg mm) = Ok (Some q) ->
  let mm' := snd (handle_message uniform_filter1d_5 np_std msg mm) in
  let window := last_20 (mid_prices mm') in
  let prices := uniform_filter1d_5 window in
  let returns := relative_returns prices in
  let vol := np_std returns in
  (exists mid, mid_prices mm' = mid_prices mm ++ [mid] /\
               (exists recent, window = recent ++ [mid]) /\
               log_our_bid q = our_bid mid (spread mm') /\
               log_our_ask q = our_ask mid (spread mm')) /\
  (exists older, mid_prices mm' = older ++ window) /\
  length window = 20%nat /\
  length returns = (length prices - 1)%nat /\
  (forall i, (S i < length prices)%nat -> ~ nth i prices 0 == 0 ->
             nth i returns 0
             = (nth (S i) prices 0 - nth i prices 0) / nth i prices 0) /\
  (Forall (fun p => ~ p == 0) (removelast prices) ->
   spread mm' = spread (snd (update_spread vol mm)) /\
   spread mm' == clamp ((3 # 1000) * vol) MIN_SPREAD MAX_SPREAD) /\
  MIN_SPREAD <= spread mm' /\ spread mm' <= MAX_SPREAD /\
  log_spread_percent q = spread mm' * 100 /\
  (forall s0, handle_message uniform_filter1d_5 np_std msg (set_spread s0 mm)
              = (Ok (Some q), mm')).
Proof.
  intros Hq. cbv zeta.
  destruct msg as [d|]; [|discriminate Hq].
  destruct (process_update d mm) as [[[]|e] mm1] eqn:E.
  - rewrite (handle_message_ok _ _ d mm mm1 E) in *.
    pose proof (after_process_update_gate mm1) as G.
    destruct (after_process_update_state mm1) as [_ [_ [_ [_ Em]]]].
    destruct (process_update_keeps d mm) as [Hm _].
    rewrite E in Hm. cbn [snd] in Hm.
    cbv zeta in G, Em. rewrite Hm in Em.
    assert (Hs0 : forall s0,
               handle_message uniform_filter1d_5 np_std (DepthUpdate d)
                 (set_spread s0 mm)
               = after_process_update uniform_filter1d_5 np_std
                   (set_spread s0 mm1)).
    { intros s0. apply handle_message_ok.
      rewrite process_update_set_spread, E. reflexivity. }
    assert (Hind : forall s0,
               after_process_update uniform_filter1d_5 np_std (set_spread s0 mm1)
               = after_process_update uniform_filter1d_5 np_std mm1).
    { intros s0. revert Hq. unfold after_process_update.
      change (observation (set_spread s0 mm1)) with (observation mm1).
      destruct (observation mm1) as [mid|]; [|discriminate].
      cbv zeta. cbn [mid_prices set_spread].
      destruct (Nat.ltb 20 (length (mid_prices mm1 ++ [mid])));
        [reflexivity | discriminate]. }
    set (r := after_process_update uniform_filter1d_5 np_std mm1) in *.
    destruct (observation mm1) as [mid|];
      [|destruct G as [G1 _]; rewrite G1 in Hq; discriminate Hq].
    destruct (Nat.ltb_spec 20 (length (mid_prices (snd r)))) as [L|L];
      [|destruct G as [G1 _]; rewrite G1 in Hq; discriminate Hq].
    destruct G as [G1 G2]. rewrite G1 in Hq. injection Hq as <-.
    cbn [log_spread_percent log_our_bid log_our_ask].
    rewrite Em in L.
    destruct (last_20_snoc (mid_prices mm) mid L) as [[recent W1] [[older W2] W3]].
    rewrite <- Em in W1, W2, W3.
    change (volatility_of uniform_filter1d_5 np_std (mid_prices (snd r)))
      with (np_std (relative_returns
                      (uniform_filter1d_5 (last_20 (mid_prices (snd r))))))
      in G2.
    split; [exists mid; split; [exact Em|]; split; [exists recent; exact W1|];
            split; reflexivity|].
    split; [exists older; exact W2|].
    split; [exact W3|].
    split; [apply relative_returns_length|].
    split; [intros i Hi _; apply relative_returns_nth, Hi|].
    split; [intros _; split; [exact G2|]; rewrite G2 at 1; apply spread_for_clamp|].
    split; [rewrite G2; apply spread_for_bounds|].
    split; [rewrite G2; apply spread_for_bounds|].
    split; [reflexivity|].
    intros s0. rewrite Hs0, Hind. fold r.
    rewrite (surjective_pairing r). rewrite G1. reflexivity.
  - rewrite (handle_message_raise _ _ d mm mm1 e E) in Hq.
    destruct e; discriminate Hq.
Qed.

(** A logged quote shows a spread that [update_spread] computed. *)
Lemma logged_quote_spread (msg : message) (mm : MarketMaker) (q : QuoteLog) :
  fst (handle_message uniform_filter1d_5 np_std msg mm) = Ok (Some q) ->
  exists v, log_spread_percent q = spread_for v * 100.
Proof.
  intros Hq.
  destruct (handle_message_cases msg mm) as [[_ [_ Hn]] | [mm1 [_ [_ E]]]];
    [exfalso; exact (Hn q Hq)|].
  cbv zeta in E. rewrite E in Hq.
  pose proof (after_process_update_gate mm1) as G. cbv zeta in G.
  destruct (observation mm1) as [mid|];
    [|destruct G as [G1 _]; rewrite G1 in Hq; discriminate Hq].
  destruct (Nat.ltb 20 _);
    [|destruct G as [G1 _]; rewrite G1 in Hq; discriminate Hq].
  destruct G as [G1 G2]. rewrite G1 in Hq. injection Hq as <-.
  eexists. cbn [log_spread_percent]. rewrite G2 at 1. reflexivity.
Qed.

(** Over a whole stream, from any object: every quote logged shows a spread
    in [[MIN_SPREAD, MAX_SPREAD]]. *)
Lemma every_logged_quote_in_bounds (ws : list message) (mm : MarketMaker) :
  Forall (fun q => exists s, log_spread_percent q = s * 100 /\
                             MIN_SPREAD <= s /\ s <= MAX_SPREAD)
         (fst (handle_messages uniform_filter1d_5 np_std ws mm)).
Proof.
  revert mm. induction ws as [|msg ws IH]; intros mm; simpl; [constructor|].
  destruct (handle_message uniform_filter1d_5 np_std msg mm) as [[q|e] mm'] eqn:E;
    [|constructor].
  specialize (IH mm').
  destruct (handle_messages uniform_filter1d_5 np_std ws mm') as [qs r].
  simpl in *. destruct q as [q|]; [|exact IH].
  constructor; [|exact IH].
  destruct (logged_quote_spread msg mm q) as [v Hv]; [rewrite E; reflexivity|].
  exists (spread_for v). split; [exact Hv | apply spread_for_bounds].
Qed.

End MessageClaims.

(** ** Concrete runs of the loop body *)

(** C5, as stated, fails: a diff that is entirely behind the cursor of
    a SYNCED book is ignored by [process_update], the book is unchanged, and
    still the loop body appends the mid-price of the book to the series. *)
Lemma stale_diff_appends_mid_price :
  let r := handle_message plain_filter zero_std (DepthUpdate stale_diff) synced_1001 in
  sync_state synced_1001 = SYNCED /\
  (U stale_diff <= 1001 + 1)%Z /\ (u stale_diff < 1001 + 1)%Z /\
  fst r = Ok None /\
  bids (snd r) = bids synced_1001 /\ asks (snd r) = asks synced_1001 /\
  last_update_id (snd r) = Some 1001%Z /\
  mid_prices synced_1001 = [] /\
  mid_prices (snd r) = [(100 + 101) / 2].
Proof. cbv zeta. repeat split; simpl; lia. Qed.

Lemma mid_price_per_handled_diff_witness :
  let applied_ := snd (handle_message plain_filter zero_std (DepthUpdate next_diff)
                         synced_1001) in
  let stale_ := snd (handle_message plain_filter zero_std (DepthUpdate stale_diff)
                       synced_1001) in
  (bids applied_ = [(100, 2)] /\
   mid_prices applied_ = mid_prices synced_1001 ++ [(100 + 101) / 2]) /\
  (bids stale_ = [(100, 1)] /\
   mid_prices stale_ = mid_prices synced_1001 ++ [(100 + 101) / 2]).
Proof.
  cbv zeta. split.
  - destruct (mid_price_per_handled_diff plain_filter zero_std synced_1001
                next_diff 1001%Z eq_refl) as [H _].
    assert (Hio : (U next_diff <= 1001 + 1 <= u next_diff)%Z) by (simpl; lia).
    destruct (H Hio) as [Hb [_ Hm]].
    split; [exact Hb | exact (proj1 Hm)].
  - destruct (mid_price_per_handled_diff plain_filter zero_std synced_1001
                stale_diff 1001%Z eq_refl) as [_ [H _]].
    assert (HU : (U stale_diff <= 1001 + 1)%Z) by (simpl; lia).
    assert (Hu : (u stale_diff < 1001 + 1)%Z) by (simpl; lia).
    destruct (H eq_refl HU Hu) as [Hb [_ [_ Hm]]].
    split; [exact Hb | exact Hm].
Defined.

(** C6, as stated, fails: availability does not coincide with the
    20-element window being full.  The message that brings the 20th
    observation fills the window, yet no quote is logged and the spread
    keeps its initial value. *)
Lemma no_estimate_when_window_fills :
  let r := handle_message plain_filter zero_std (DepthUpdate next_diff)
             (synced_with 19) in
  length (mid_prices (snd r)) = 20%nat /\
  length (last_20 (mid_prices (snd r))) = 20%nat /\
  fst r = Ok None /\
  spread (snd r) = INITIAL_SPREAD.
Proof. cbv zeta. repeat split. Qed.

Lemma estimate_from_21st_observation_witness :
  let r20 := handle_message plain_filter zero_std (DepthUpdate next_diff)
               (synced_with 19) in
  let r21 := handle_message plain_filter zero_std (DepthUpdate next_diff)
               (synced_with 20) in
  ((forall q, fst r20 <> Ok (Some q)) /\ spread (snd r20) = INITIAL_SPREAD) /\
  ((exists q, fst r21 = Ok (Some q)) /\
   spread (snd r21)
   = spread_for (volatility_of plain_filter zero_std (mid_prices (snd r21))) /\
   length (last_20 (mid_prices (snd r21))) = 20%nat).
Proof.
  cbv zeta. split.
  - destruct (estimate_from_21st_observation plain_filter zero_std
                (DepthUpdate next_diff) (synced_with 19)) as [_ [H _]].
    apply H. vm_compute. lia.
  - destruct (estimate_from_21st_observation plain_filter zero_std
                (DepthUpdate next_diff) (synced_with 20)) as [_ [_ [_ H]]].
    apply H; [vm_compute; lia | reflexivity].
Defined.

Lemma quote_uses_fresh_spread_witness :
  let r := handle_message plain_filter mean_of (DepthUpdate next_diff)
             synced_doubling in
  let window := last_20 (mid_prices (snd r)) in
  exists q,
    fst r = Ok (Some q) /\
    (exists older, mid_prices (snd r) = older ++ window) /\
    length window = 20%nat /\
    window = map (fun k => inject_Z (2 ^ Z.of_nat k)) (seq 1 19)
             ++ [(1048575 + 1048577) / 2] /\
    spread (snd r)
    = spread (snd (update_spread (mean_of (relative_returns (plain_filter window)))
                     synced_doubling)) /\
    spread (snd r)
    == clamp ((3 # 1000) * mean_of (relative_returns (plain_filter window)))
         MIN_SPREAD MAX_SPREAD /\
    spread (snd r) == 3 # 1000 /\
    MIN_SPREAD <= spread (snd r) /\ spread (snd r) <= MAX_SPREAD /\
    log_spread_percent q = spread (snd r) * 100 /\
    handle_message plain_filter mean_of (DepthUpdate next_diff)
      (set_spread (7 # 10) synced_doubling) = (Ok (Some q), snd r).
Proof.
  cbv zeta. eexists. split; [reflexivity|].
  destruct (quote_uses_fresh_spread plain_filter mean_of
              (DepthUpdate next_diff) synced_doubling _ eq_refl)
    as [_ [H2 [H3 [_ [_ [H6 [H8 [H9 [H10 H11]]]]]]]]].
  split; [exact H2|]. split; [exact H3|]. split; [reflexivity|].
  assert (Hnz : Forall (fun p => ~ p == 0)
                  (removelast
                     (plain_filter
                        (last_20
                           (mid_prices
                              (snd (handle_message plain_filter mean_of
                                      (DepthUpdate next_diff) synced_doubling))))))).
  { vm_compute. repeat (constructor; [intros H; discriminate H|]). constructor. }
  destruct (H6 Hnz) as [H6a H6b].
  split; [exact H6a|]. split; [exact H6b|]. split; [vm_compute; reflexivity|].
  split; [exact H8|]. split; [exact H9|].
  split; [exact H10|]. exact (H11 (7 # 10)).
Defined.

(** * Further properties of the code *)

(** ** Replays, cursor and exceptions of [process_update] *)

(** X1.  Processing a diff a second time, right after the first time,
    changes nothing: the outcome is the same and the object is left as the
    first call left it (an applied diff is stale for the book it
    produced). *)
Theorem process_update_replay (d : Update) (mm : MarketMaker) :
  process_update d (snd (process_update d mm))
  = (fst (process_update d mm), snd (process_update d mm)).
Proof.
  destruct (in_order mm d) eqn:E.
  - rewrite (process_update_in_order d mm E). cbn [fst snd].
    unfold in_order in E.
    destruct (last_update_id mm) as [l|] eqn:Hl; [|discriminate].
    apply andb_prop in E. destruct E as [E1 E2]. apply Z.leb_le in E1, E2.
    apply (process_update_dropped d (applied d mm) (u d)).
    + reflexivity.
    + unfold in_order. cbn [applied last_update_id].
      apply andb_false_iff. right. apply Z.leb_gt. lia.
    + intros _. lia.
  - pose proof (process_update_not_in_order d mm E) as E'.
    rewrite E'. rewrite (surjective_pairing (process_update d mm)) at 1.
    f_equal. exact E'.
Qed.

Lemma process_update_cursor (d : Update) (mm : MarketMaker) (l : Z) :
  last_update_id mm = Some l ->
  exists l', last_update_id (snd (process_update d mm)) = Some l' /\
             (l <= l')%Z /\
             (first_processed mm = true ->
              first_processed (snd (process_update d mm)) = true).
Proof.
  intros Hl. destruct (in_order mm d) eqn:E.
  - rewrite (process_update_in_order d mm E). cbn [snd applied last_update_id
      first_processed].
    apply (in_order_iff d mm l Hl) in E.
    exists (u d). split; [reflexivity|]. split; [lia | reflexivity].
  - rewrite (process_update_not_in_order d mm E).
    exists l. split; [exact Hl|]. split; [lia | tauto].
Qed.

(** X2.  Over any sequence of [process_update] calls on a book that has
    its snapshot, [last_update_id] never decreases and [first_processed],
    once set, stays set. *)
Theorem cursor_never_goes_back (ds : list Update) (mm : MarketMaker) (l : Z) :
  last_update_id mm = Some l ->
  exists l', last_update_id (after_updates ds mm) = Some l' /\
             (l <= l')%Z /\
             (first_processed mm = true ->
              first_processed (after_updates ds mm) = true).
Proof.
  revert mm l. unfold after_updates.
  induction ds as [|d ds IH]; intros mm l Hl; simpl.
  - exists l. split; [exact Hl|]. split; [lia | tauto].
  - destruct (process_update_cursor d mm l Hl) as [l1 [H1 [L1 F1]]].
    destruct (IH _ l1 H1) as [l2 [H2 [L2 F2]]].
    exists l2. split; [exact H2|]. split; [lia | tauto].
Qed.

Lemma cursor_never_goes_back_witness :
  exists l', last_update_id (after_updates [stale_diff; next_diff; remove_bid_100]
                               synced_1001) = Some l' /\
             (1001 <= l')%Z /\
             first_processed (after_updates [stale_diff; next_diff; remove_bid_100]
                                synced_1001) = true.
Proof.
  destruct (cursor_never_goes_back [stale_diff; next_diff; remove_bid_100]
              synced_1001 1001%Z eq_refl) as [l' [H1 [H2 H3]]].
  exists l'. split; [exact H1|]. split; [exact H2 | exact (H3 eq_refl)].
Defined.

(** ** The sort on sorted input *)

Lemma level_ltb_asym (x y : Level) :
  level_ltb x y = true -> level_ltb y x = false.
Proof.
  unfold level_ltb.
  destruct (Qeq_bool (fst x) (fst y)) eqn:E1;
    destruct (Qeq_bool (fst y) (fst x)) eqn:E2; intros H;
    apply Qltb_true in H; try (apply Qltb_false, Qlt_le_weak, H).
  - apply Qeq_bool_iff in E1. apply Qeq_bool_false in E2.
    exfalso. apply E2. symmetry. exact E1.
  - apply Qeq_bool_iff in E2. apply Qeq_bool_false in E1.
    exfalso. apply E1. symmetry. exact E2.
Qed.

Lemma goes_after_asym (r : bool) (x y : Level) :
  goes_after r x y = true -> goes_after r y x = false.
Proof. destruct r; simpl; apply level_ltb_asym. Qed.

Lemma insert_level_HdRel (r : bool) (x y : Level) (l : list Level) :
  HdRel (fun x y => goes_after r x y = false) y l ->
  goes_after r y x = false ->
  HdRel (fun x y => goes_after r x y = false) y (insert_level r x l).
Proof.
  intros H Hyx. destruct l as [|z l]; simpl; [constructor; exact Hyx|].
  destruct (goes_after r x z); constructor; [|exact Hyx].
  inversion H; assumption.
Qed.

Lemma insert_level_lex_sorted (r : bool) (x : Level) (l : list Level) :
  lex_sorted r l -> lex_sorted r (insert_level r x l).
Proof.
  unfold lex_sorted. induction 1 as [|y l Hs IH Hy]; simpl.
  - repeat constructor.
  - destruct (goes_after r x y) eqn:E.
    + constructor; [exact IH|].
      apply insert_level_HdRel; [exact Hy | apply goes_after_asym, E].
    + repeat constructor; assumption.
Qed.

Lemma sort_levels_lex_sorted (r : bool) (l : list Level) :
  lex_sorted r (sort_levels r l).
Proof.
  induction l; simpl; [constructor | apply insert_level_lex_sorted; assumption].
Qed.

Lemma sort_levels_lex_id (r : bool) (l : list Level) :
  lex_sorted r l -> sort_levels r l = l.
Proof.
  unfold lex_sorted. induction 1 as [|x l Hs IH Hx]; simpl; [reflexivity|].
  rewrite IH. destruct Hx as [|y l' Hxy]; simpl; [reflexivity|].
  rewrite Hxy. reflexivity.
Qed.

Lemma lex_sorted_after_updates (mm0 : MarketMaker) (s : Snapshot) (ds : list Update) :
  let mm := after_updates ds (snd (process_snapshot s mm0)) in
  lex_sorted true (bids mm) /\ lex_sorted false (asks mm).
Proof.
  cbv zeta.
  apply (after_updates_invariant
           (fun m => lex_sorted true (bids m) /\ lex_sorted false (asks m))).
  - intros d m _ _. split; apply sort_levels_lex_sorted.
  - split; apply sort_levels_lex_sorted.
Qed.

(** X4.  A diff without level changes leaves the bids and asks of a book
    (one that was filled by [process_snapshot] and any [process_update]
    calls) exactly as they are, also when it is applied; an applied one only
    moves [last_update_id] to its [u]. *)
Theorem empty_diff_keeps_book (mm0 : MarketMaker) (s : Snapshot)
    (ds : list Update) (d : Update) :
  b d = [] -> a d = [] ->
  let mm := after_updates ds (snd (process_snapshot s mm0)) in
  bids (snd (process_update d mm)) = bids mm /\
  asks (snd (process_update d mm)) = asks mm /\
  (in_order mm d = true ->
   last_update_id (snd (process_update d mm)) = Some (u d)).
Proof.
  intros Hb Ha mm.
  destruct (lex_sorted_after_updates mm0 s ds) as [Sb Sa]. fold mm in Sb, Sa.
  destruct (in_order mm d) eqn:E.
  - rewrite (process_update_in_order d mm E).
    cbn [snd applied bids asks last_update_id]. rewrite Hb, Ha.
    unfold apply_side. cbn [fold_left].
    rewrite (sort_levels_lex_id true _ Sb), (sort_levels_lex_id false _ Sa).
    repeat split.
  - rewrite (process_update_not_in_order d mm E).
    split; [reflexivity|]. split; [reflexivity | discriminate].
Qed.

Lemma empty_diff_keeps_book_witness :
  let mm := after_updates [ask_100_to_5]
              (snd (process_snapshot twice_100_snapshot init)) in
  let d := {| U := 12; u := 15; b := []; a := [] |} in
  bids (snd (process_update d mm)) = bids mm /\
  asks (snd (process_update d mm)) = asks mm /\
  last_update_id (snd (process_update d mm)) = Some 15%Z.
Proof.
  cbv zeta.
  destruct (empty_diff_keeps_book init twice_100_snapshot [ask_100_to_5]
              {| U := 12; u := 15; b := []; a := [] |} eq_refl eq_refl)
    as [H1 [H2 H3]].
  split; [exact H1|]. split; [exact H2 | exact (H3 eq_refl)].
Defined.

(** X5.  [process_snapshot] keeps every level of the snapshot, each as
    often as the snapshot lists it, whatever the object held before; and a
    side that the snapshot already lists in strict price order (bids
    descending, asks ascending) is stored as it is. *)
Theorem process_snapshot_keeps_levels (s : Snapshot) (mm : MarketMaker) :
  let mm' := snd (process_snapshot s mm) in
  Permutation (bids mm') (snap_bids s) /\
  Permutation (asks mm') (snap_asks s) /\
  (strictly_sorted_side true (snap_bids s) -> bids mm' = snap_bids s) /\
  (strictly_sorted_side false (snap_asks s) -> asks mm' = snap_asks s).
Proof.
  cbv zeta.
  change (bids (snd (process_snapshot s mm))) with (sort_levels true (snap_bids s)).
  change (asks (snd (process_snapshot s mm))) with (sort_levels false (snap_asks s)).
  split; [apply sort_levels_perm|]. split; [apply sort_levels_perm|].
  split; apply sort_levels_id.
Qed.

Lemma process_snapshot_keeps_levels_witness :
  let s := {| snap_bids := [(100, 1); (99, 2)]; snap_asks := [(101, 1); (102, 3)];
              lastUpdateId := 7 |} in
  bids (snd (process_snapshot s synced_1001)) = [(100, 1); (99, 2)] /\
  asks (snd (process_snapshot s synced_1001)) = [(101, 1); (102, 3)].
Proof.
  cbv zeta.
  destruct (process_snapshot_keeps_levels
              {| snap_bids := [(100, 1); (99, 2)]; snap_asks := [(101, 1); (102, 3)];
                 lastUpdateId := 7 |} synced_1001) as [_ [_ [Hb Ha]]].
  split; [apply Hb | apply Ha]; repeat constructor.
Defined.

(** ** What a batch leaves in a side *)

(** X6.  The last change of a batch for a price decides: after a removal
    (quantity 0) no level of the side has that price; after any other
    quantity the side has a level at that price with that quantity, and on a
    side that had no price twice every level at that price has it. *)
Theorem last_change_wins (r : bool) (cs side : list Level) (p q : Q) :
  let side' := apply_side r (cs ++ [(p, q)]) side in
  (q == 0 -> forall x, In x side' -> ~ fst x == p) /\
  (~ q == 0 -> exists x, In x side' /\ fst x == p /\ snd x = q) /\
  (~ q == 0 -> distinct_prices side ->
   forall x, In x side' -> fst x == p -> snd x = q).
Proof.
  cbv zeta. unfold apply_side. rewrite fold_left_app. cbn [fold_left].
  set (l := fold_left apply_level cs side).
  assert (Hex : ~ q == 0 ->
                exists x, In x (sort_levels r (apply_level l (p, q))) /\
                          fst x == p /\ snd x = q).
  { intros N. apply Qeq_bool_false in N. unfold apply_level. rewrite N.
    destruct (existsb (fun x : Q * Q => Qeq_bool (fst x) p) l) eqn:E.
    - destruct (update_first_hit p q l E) as [x [Hx Hq]].
      exists x. split; [apply sort_levels_in, Hx | exact Hq].
    - exists (p, q). split; [|split; reflexivity].
      apply sort_levels_in, in_or_app. right. now left. }
  split; [|split].
  - intros Z x Hx. apply sort_levels_in in Hx.
    unfold apply_level in Hx. rewrite (Qeq_eq_bool _ _ Z) in Hx.
    apply filter_In in Hx. destruct Hx as [_ Hx].
    apply negb_true_iff in Hx. apply Qeq_bool_false, Hx.
  - exact Hex.
  - intros N Hd x Hx E. destruct (Hex N) as [y [Hy [Ey Qy]]].
    assert (D : distinct_prices (sort_levels r (apply_level l (p, q)))).
    { eapply distinct_prices_perm; [apply Permutation_sym, sort_levels_perm|].
      apply apply_level_distinct, fold_apply_level_distinct, Hd. }
    rewrite (distinct_prices_unique _ x y D Hx Hy); [exact Qy|].
    rewrite E, Ey. reflexivity.
Qed.

Lemma last_change_wins_witness :
  let side' := apply_side true [(99, 2); (100, 0); (100, 3)] [(100, 1)] in
  (exists x, In x side' /\ fst x == 100 /\ snd x = 3) /\
  (forall x, In x side' -> fst x == 100 -> snd x = 3) /\
  (forall x, In x (apply_side true [(99, 2); (100, 0)] [(100, 1)]) ->
             ~ fst x == 100).
Proof.
  cbv zeta.
  destruct (last_change_wins true [(99, 2); (100, 0)] [(100, 1)] 100 3)
    as [_ [H2 H3]].
  destruct (last_change_wins true [(99, 2)] [(100, 1)] 100 0) as [H1 _].
  assert (N : ~ 3 == 0) by (intros H; discriminate H).
  split; [exact (H2 N)|]. split.
  - apply (H3 N). apply distinct_pricesb_iff. reflexivity.
  - apply H1. reflexivity.
Defined.

(** X7.  A batch leaves the prices it does not mention alone: a level
    whose price no change of the batch names is in the side after the batch
    exactly when it was in the side before. *)
Theorem untouched_prices_kept (r : bool) (cs side : list Level) (x : Level) :
  (forall c, In c cs -> ~ fst c == fst x) ->
  (In x (apply_side r cs side) <-> In x side).
Proof.
  intros H. unfold apply_side. rewrite sort_levels_in.
  revert side. induction cs as [|c cs IH]; intros side; simpl; [tauto|].
  rewrite IH by (intros c' Hc'; apply H; now right).
  apply apply_level_in_other. intros E. apply (H c); [now left | symmetry; exact E].
Qed.

Lemma untouched_prices_kept_witness :
  In (101, 4) (apply_side false [(102, 1); (103, 0)] [(101, 4); (103, 9)])
  <-> In (101, 4) [(101, 4); (103, 9)].
Proof.
  apply (untouched_prices_kept false [(102, 1); (103, 0)]
           [(101, 4); (103, 9)] (101, 4)).
  intros c [<-|[<-|[]]] H; discriminate H.
Defined.

Lemma change_at_swap (p : Q) (c1 c2 : Level) (o : option Level) :
  ~ fst c1 == fst c2 ->
  change_at p (change_at p o c1) c2 = change_at p (change_at p o c2) c1.
Proof.
  intros N. unfold change_at.
  destruct (Qeq_bool (fst c1) p) eqn:E1, (Qeq_bool (fst c2) p) eqn:E2;
    try reflexivity.
  apply Qeq_bool_iff in E1, E2. exfalso. apply N. rewrite E1, E2. reflexivity.
Qed.

(** X8.  Two neighbouring changes of a batch for different prices can be
    swapped: on a side without duplicate prices the batch yields the same
    side in either order. *)
Theorem changes_at_different_prices_commute
    (r : bool) (cs1 cs2 side : list Level) (c1 c2 : Level) :
  distinct_prices side -> ~ fst c1 == fst c2 ->
  apply_side r (cs1 ++ c1 :: c2 :: cs2) side
  = apply_side r (cs1 ++ c2 :: c1 :: cs2) side.
Proof.
  intros Hd N. apply apply_side_ext; [exact Hd|].
  intros p o. rewrite !fold_left_app. cbn [fold_left].
  rewrite (change_at_swap p c1 c2 _ N). reflexivity.
Qed.

Lemma changes_at_different_prices_commute_witness :
  apply_side true ([(98, 1)] ++ (100, 0) :: (99, 2) :: [(100, 5)]) [(100, 1)]
  = apply_side true ([(98, 1)] ++ (99, 2) :: (100, 0) :: [(100, 5)]) [(100, 1)].
Proof.
  apply (changes_at_different_prices_commute true [(98, 1)] [(100, 5)]
           [(100, 1)] (100, 0) (99, 2)).
  - apply distinct_pricesb_iff. reflexivity.
  - intros H. discriminate H.
Defined.

Lemma change_at_shape (p : Q) (cs : list Level) :
  exists sh, forall o, fold_left (change_at p) cs o = shape_at sh o.
Proof.
  induction cs as [|c cs [sh IH]] using rev_ind.
  - exists KeepFound. reflexivity.
  - unfold change_at at 1.
    destruct (Qeq_bool (fst c) p) eqn:E1.
    + destruct (Qeq_bool (snd c) 0) eqn:E2.
      * exists (Constant None). intros o. rewrite fold_left_app. cbn [fold_left].
        unfold change_at. rewrite E1, E2. reflexivity.
      * destruct sh as [|[y|]|p0 q0].
        -- exists (SetQty (fst c) (snd c)). intros o.
           rewrite fold_left_app. cbn [fold_left]. rewrite IH.
           unfold change_at. rewrite E1, E2. cbn [shape_at].
           destruct o as [[]|]; [reflexivity | destruct c; reflexivity].
        -- exists (Constant (Some (fst y, snd c))). intros o.
           rewrite fold_left_app. cbn [fold_left]. rewrite IH.
           unfold change_at. rewrite E1, E2. reflexivity.
        -- exists (Constant (Some c)). intros o.
           rewrite fold_left_app. cbn [fold_left]. rewrite IH.
           unfold change_at. rewrite E1, E2. reflexivity.
        -- exists (SetQty p0 (snd c)). intros o.
           rewrite fold_left_app. cbn [fold_left]. rewrite IH.
           unfold change_at. rewrite E1, E2. cbn [shape_at].
           destruct o; reflexivity.
    + exists sh. intros o. rewrite fold_left_app. cbn [fold_left]. rewrite IH.
      unfold change_at. rewrite E1. reflexivity.
Qed.

Lemma shape_at_twice (sh : shape) (o : option Level) :
  shape_at sh (shape_at sh o) = shape_at sh o.
Proof. destruct sh as [|c|p0 q]; cbn; [reflexivity | reflexivity|]. destruct o; reflexivity. Qed.

(** X9.  Applying the changes of a diff a second time changes nothing:
    on a side without duplicate prices, the batch applied to its own result
    gives that result again. *)
Theorem apply_side_twice (r : bool) (cs side : list Level) :
  distinct_prices side ->
  apply_side r cs (apply_side r cs side) = apply_side r cs side.
Proof.
  intros Hd. rewrite (apply_side_app r cs cs side Hd).
  apply apply_side_ext; [exact Hd|].
  intros p o. rewrite fold_left_app.
  destruct (change_at_shape p cs) as [sh H].
  rewrite !H. apply shape_at_twice.
Qed.

Lemma apply_side_twice_witness :
  apply_side false [(101, 4); (102, 1); (101, 0)]
    (apply_side false [(101, 4); (102, 1); (101, 0)] [(101, 1); (103, 2)])
  = apply_side false [(101, 4); (102, 1); (101, 0)] [(101, 1); (103, 2)].
Proof.
  apply (apply_side_twice false [(101, 4); (102, 1); (101, 0)] [(101, 1); (103, 2)]).
  apply distinct_pricesb_iff. reflexivity.
Defined.

(** ** The loop body and the stream *)


Lemma quote_width (mid s : Q) :
  our_ask mid s - our_bid mid s == mid * s.
Proof. unfold our_bid, our_ask. field. Qed.

Lemma quote_order (mid s : Q) :
  0 < mid -> 0 < s -> our_bid mid s < mid /\ mid < our_ask mid s.
Proof.
  intros Hm Hs. unfold our_bid, our_ask.
  assert (H : 0 < mid * (s / 2)).
  { apply Qmult_lt_0_compat; [exact Hm|].
    unfold Qdiv. apply Qmult_lt_0_compat; [exact Hs | reflexivity]. }
  assert (Eb : mid * (1 - s / 2) == mid - mid * (s / 2)) by ring.
  assert (Ea : mid * (1 + s / 2) == mid + mid * (s / 2)) by ring.
  rewrite Eb, Ea. remember (mid * (s / 2)) as t. clear Heqt Eb Ea.
  split; lra.
Qed.

Section StreamProperties.

Variable uniform_filter1d_5 : list Q -> list Q.
Variable np_std : list Q -> Q.

Lemma after_process_update_returns (mm1 : MarketMaker) :
  exists q, fst (after_process_update uniform_filter1d_5 np_std mm1) = Ok q.
Proof.
  unfold after_process_update. destruct (observation mm1) as [mid|].
  - cbv zeta. destruct (Nat.ltb 20 _); eexists; reflexivity.
  - eexists; reflexivity.
Qed.

Lemma handle_message_book (msg : message) (mm : MarketMaker) :
  let mm' := snd (handle_message uniform_filter1d_5 np_std msg mm) in
  let mm1 := match msg with
             | DepthUpdate d => snd (process_update d mm)
             | OtherMessage => mm
             end in
  bids mm' = bids mm1 /\ asks mm' = asks mm1 /\
  last_update_id mm' = last_update_id mm1 /\
  first_processed mm' = first_processed mm1.
Proof.
  destruct msg as [d|]; cbv zeta; [|repeat split].
  destruct (process_update d mm) as [[[]|e] mm1] eqn:E.
  - rewrite (handle_message_ok _ _ d mm mm1 E). cbn [snd].
    destruct (after_process_update_state uniform_filter1d_5 np_std mm1)
      as [H1 [H2 [H3 [H4 _]]]].
    repeat split; assumption.
  - rewrite (handle_message_raise _ _ d mm mm1 e E). repeat split.
Qed.

(** X10.  Logging and the spread update never touch the book: after one
    message, bids, asks, [last_update_id] and [first_processed] are what
    [process_update] alone leaves (for a message that is no depth update,
    what they were). *)
Theorem handle_message_keeps_book (msg : message) (mm : MarketMaker) :
  let mm' := snd (handle_message uniform_filter1d_5 np_std msg mm) in
  let mm1 := match msg with
             | DepthUpdate d => snd (process_update d mm)
             | OtherMessage => mm
             end in
  bids mm' = bids mm1 /\ asks mm' = asks mm1 /\
  last_update_id mm' = last_update_id mm1 /\
  first_processed mm' = first_processed mm1 /\
  sync_state mm' = sync_state mm1.
Proof.
  destruct (handle_message_book msg mm) as [H1 [H2 [H3 H4]]]. cbv zeta.
  repeat (split; [assumption|]).
  unfold sync_state. rewrite H3, H4. reflexivity.
Qed.


Lemma handle_message_count (msg : message) (mm : MarketMaker) :
  let r := handle_message uniform_filter1d_5 np_std msg mm in
  let n := length (mid_prices mm) in
  let n' := length (mid_prices (snd r)) in
  (exists extra, mid_prices (snd r) = mid_prices mm ++ extra) /\
  (n <= n' <= S n)%nat /\
  match fst r with
  | Ok (Some _) => (Nat.max 20 n' - Nat.max 20 n = 1)%nat
  | _ => (Nat.max 20 n' - Nat.max 20 n = 0)%nat
  end.
Proof.
  cbv zeta.
  destruct (handle_message_cases uniform_filter1d_5 np_std msg mm)
    as [[Hm [_ Hq]] | [mm1 [Hm [_ E]]]].
  - rewrite Hm. split; [exists []; symmetry; apply app_nil_r|].
    split; [lia|].
    destruct (fst (handle_message uniform_filter1d_5 np_std msg mm)) as [[q|]|e];
      [exfalso; exact (Hq q eq_refl) | lia | lia].
  - cbv zeta in E. rewrite E.
    pose proof (after_process_update_gate uniform_filter1d_5 np_std mm1) as G.
    destruct (after_process_update_state uniform_filter1d_5 np_std mm1)
      as [_ [_ [_ [_ Em]]]].
    cbv zeta in G, Em. rewrite Hm in Em.
    set (r := after_process_update uniform_filter1d_5 np_std mm1) in *.
    destruct (observation mm1) as [mid|].
    + assert (Hlen : length (mid_prices (snd r)) = S (length (mid_prices mm)))
        by (rewrite Em; apply last_length).
      split; [exists [mid]; exact Em|]. split; [lia|].
      destruct (Nat.ltb_spec 20 (length (mid_prices (snd r)))) as [L|L];
        destruct G as [G1 _]; rewrite G1; lia.
    + destruct G as [G1 _]. rewrite G1, Em, app_nil_r.
      split; [exists []; symmetry; apply app_nil_r|]. lia.
Qed.

Lemma handle_messages_count (ws : list message) (mm : MarketMaker) :
  let res := handle_messages uniform_filter1d_5 np_std ws mm in
  let n := length (mid_prices mm) in
  let n' := length (mid_prices (snd (snd res))) in
  (exists extra, mid_prices (snd (snd res)) = mid_prices mm ++ extra) /\
  (n <= n' <= n + length ws)%nat /\
  length (fst res) = (Nat.max 20 n' - Nat.max 20 n)%nat.
Proof.
  cbv zeta. revert mm. induction ws as [|msg ws IH]; intros mm;
    cbn [handle_messages length fst snd].
  - split; [exists []; symmetry; apply app_nil_r|]. lia.
  - destruct (handle_message_count msg mm) as [[ex1 X1] [L1 C1]].
    cbv zeta in X1, L1, C1.
    destruct (handle_message uniform_filter1d_5 np_std msg mm) as [[q|e] mm1] eqn:E;
      cbn [fst snd] in *.
    + destruct (IH mm1) as [[ex2 X2] [L2 C2]].
      destruct (handle_messages uniform_filter1d_5 np_std ws mm1) as [qs r].
      cbn [fst snd] in *.
      split; [exists (ex1 ++ ex2); rewrite X2, X1, app_assoc; reflexivity|].
      split; [lia|].
      destruct q as [q|]; cbn [length]; cbv beta iota in C1; lia.
    + split; [exists ex1; exact X1|]. split; [lia|].
      destruct e; cbv beta iota in C1; cbn [length]; lia.
Qed.

(** X13.  The mid-price series only grows, by at most one value per
    message, and over any stream the loop logs exactly one quote for every
    observation that arrives when more than 20 are held: the number of quotes
    is [max(20, n') - max(20, n)] for [n] observations before and [n']
    after. *)
Theorem one_quote_per_observation_beyond_20
    (ws : list message) (mm : MarketMaker) :
  let res := handle_messages uniform_filter1d_5 np_std ws mm in
  let n := length (mid_prices mm) in
  let n' := length (mid_prices (snd (snd res))) in
  (exists extra, mid_prices (snd (snd res)) = mid_prices mm ++ extra) /\
  (n <= n' <= n + length ws)%nat /\
  length (fst res) = (Nat.max 20 n' - Nat.max 20 n)%nat.
Proof. exact (handle_messages_count ws mm). Qed.

(** X14.  An attempt of [run_bot] starts cold: with a new [MarketMaker]
    and a snapshot, a stream of [k] messages logs at most [k - 20] quotes,
    so none during the first 20 messages. *)
Theorem attempt_starts_cold (s : Snapshot) (ws : list message) :
  (length (fst (attempt uniform_filter1d_5 np_std s ws)) <= length ws - 20)%nat.
Proof.
  unfold attempt.
  destruct (handle_messages_count ws (snd (process_snapshot s init)))
    as [_ [L C]].
  cbv zeta in L, C. rewrite C.
  change (length (mid_prices (snd (process_snapshot s init)))) with 0%nat in *.
  lia.
Qed.

End StreamProperties.


(** ** A stream without gaps *)

Lemma process_update_same_book (d : Update) (mm1 mm2 : MarketMaker) :
  same_book mm1 mm2 ->
  fst (process_update d mm1) = fst (process_update d mm2) /\
  same_book (snd (process_update d mm1)) (snd (process_update d mm2)).
Proof.
  unfold same_book.
  destruct mm1 as [s1 mp1 bs1 as1 lid1 fp1], mm2 as [s2 mp2 bs2 as2 lid2 fp2].
  cbn [bids asks last_update_id first_processed].
  intros [-> [-> [-> ->]]].
  unfold process_update, bind, get, last_update_id_plus_1, raise, ret.
  destruct lid2 as [l|], fp2; cbn -[Z.leb Z.geb Z.add apply_side];
    try (repeat split; reflexivity).
  - destruct (U d <=? l + 1)%Z; [|repeat split; reflexivity].
    destruct (u d >=? l + 1)%Z; repeat split; reflexivity.
  - destruct ((U d <=? l + 1)%Z && (u d >=? l + 1)%Z); repeat split; reflexivity.
Qed.

Lemma after_updates_same_book (ds : list Update) (mm1 mm2 : MarketMaker) :
  same_book mm1 mm2 -> same_book (after_updates ds mm1) (after_updates ds mm2).
Proof.
  unfold after_updates. revert mm1 mm2.
  induction ds as [|d ds IH]; intros mm1 mm2 H; simpl; [exact H|].
  apply IH. apply (process_update_same_book d mm1 mm2 H).
Qed.

Lemma chain_all_in_order (ds : list Update) (mm : MarketMaker) (l : Z) :
  last_update_id mm = Some l -> all_in_order mm ds = chain l ds.
Proof.
  revert mm l. induction ds as [|d ds IH]; intros mm l Hl; simpl; [reflexivity|].
  unfold in_order at 1. rewrite Hl.
  destruct ((U d <=? l + 1)%Z && (l + 1 <=? u d)%Z) eqn:E; [|reflexivity].
  cbn [andb]. apply IH.
  rewrite process_update_in_order by (unfold in_order; rewrite Hl; exact E).
  reflexivity.
Qed.

Section ContiguousStream.

Variable uniform_filter1d_5 : list Q -> list Q.
Variable np_std : list Q -> Q.

(** On parsed fields: a stream of depth updates that follow one another
    is handled without an exception of [process_update], and the book is
    the one the [process_update] calls alone produce. *)
Lemma handle_messages_chain
    (ds : list Update) (mm : MarketMaker) (l : Z) :
  last_update_id mm = Some l ->
  chain l ds = true ->
  let res := handle_messages uniform_filter1d_5 np_std (map DepthUpdate ds) mm in
  fst (snd res) = Ok tt /\
  same_book (snd (snd res)) (after_updates ds mm) /\
  all_in_order mm ds = true /\
  last_update_id (snd (snd res)) = Some (last_u l ds).
Proof.
  intros Hl Hc. cbv zeta.
  assert (Hio : all_in_order mm ds = true)
    by (rewrite (chain_all_in_order ds mm l Hl); exact Hc).
  assert (G : forall mm0, same_book mm0 mm ->
            let res := handle_messages uniform_filter1d_5 np_std
                         (map DepthUpdate ds) mm0 in
            fst (snd res) = Ok tt /\
            same_book (snd (snd res)) (after_updates ds mm) /\
            last_update_id (snd (snd res)) = Some (last_u l ds)).
  { clear Hio. revert mm l Hl Hc.
    induction ds as [|d ds IH]; intros mm l Hl Hc mm0 Hsb; cbv zeta.
    - cbn. split; [reflexivity|]. split; [exact Hsb|].
      destruct Hsb as [_ [_ [H _]]]. rewrite H. exact Hl.
    - cbn [chain] in Hc. apply andb_prop in Hc. destruct Hc as [Hd Hc].
      assert (Ein : in_order mm d = true)
        by (unfold in_order; rewrite Hl; exact Hd).
      destruct (process_update_same_book d mm0 mm Hsb) as [Hf Hs].
      rewrite (process_update_in_order d mm Ein) in Hf, Hs. cbn [fst snd] in Hf, Hs.
      destruct (handle_message_book uniform_filter1d_5 np_std (DepthUpdate d) mm0)
        as [B1 [B2 [B3 B4]]]. cbv zeta in B1, B2, B3, B4.
      assert (Hsb1 : same_book
                (snd (handle_message uniform_filter1d_5 np_std (DepthUpdate d) mm0))
                (applied d mm)).
      { destruct Hs as [S1 [S2 [S3 S4]]].
        unfold same_book. rewrite B1, B2, B3, B4. tauto. }
      assert (Hok : exists q,
                 fst (handle_message uniform_filter1d_5 np_std (DepthUpdate d) mm0)
                 = Ok q).
      { destruct (process_update d mm0) as [r0 m0] eqn:E0. cbn [fst] in Hf.
        subst r0. rewrite (handle_message_ok _ _ d mm0 m0 E0).
        apply after_process_update_returns. }
      destruct Hok as [q Hq].
      cbn [map handle_messages].
      destruct (handle_message uniform_filter1d_5 np_std (DepthUpdate d) mm0)
        as [r1 m1] eqn:E1. cbn [fst snd] in Hq, Hsb1. subst r1.
      specialize (IH (applied d mm) (u d) eq_refl Hc m1 Hsb1). cbv zeta in IH.
      destruct (handle_messages uniform_filter1d_5 np_std (map DepthUpdate ds) m1)
        as [qs r]. cbn [fst snd] in *.
      destruct IH as [I1 [I2 I3]].
      split; [exact I1|]. split; [|exact I3].
      unfold after_updates in *. cbn [fold_left].
      rewrite (process_update_in_order d mm Ein). exact I2. }
  destruct (G mm) as [G1 [G2 G3]]; [repeat split|].
  repeat split; assumption || apply G2.
Qed.

End ContiguousStream.

(** ** The quotes that are logged *)

Lemma np_diff_flat (c : Q) (l : list Q) :
  Forall (fun x => x == c) l -> Forall (fun x => x == 0) (np_diff l).
Proof.
  induction 1 as [|x l Hx Hl IH]; [constructor|].
  destruct l as [|y l]; [constructor|].
  change (np_diff (x :: y :: l)) with ((y - x) :: np_diff (y :: l)).
  constructor; [|exact IH].
  inversion Hl as [|? ? Hy _]; subst. rewrite Hx, Hy. ring.
Qed.

Lemma relative_returns_flat (c : Q) (l : list Q) :
  Forall (fun x => x == c) l -> Forall (fun x => x == 0) (relative_returns l).
Proof.
  intros H. unfold relative_returns. apply Forall_forall. intros r Hr.
  apply in_map_iff in Hr. destruct Hr as [[dx p] [<- Hin]].
  apply in_combine_l in Hin. cbn [fst snd].
  pose proof (np_diff_flat c l H) as D. rewrite Forall_forall in D.
  rewrite (D dx Hin). unfold Qdiv. ring.
Qed.

Lemma spread_for_zero (v : Q) : v == 0 -> spread_for v = MIN_SPREAD.
Proof.
  intros E.
  change (spread_for v)
    with (py_max MIN_SPREAD (py_min MAX_SPREAD ((3 # 1000) * v))).
  unfold py_max, py_min.
  assert (H1 : Qltb ((3 # 1000) * v) MAX_SPREAD = true)
    by (apply Qltb_true; rewrite E; reflexivity).
  rewrite H1.
  assert (H2 : Qltb MIN_SPREAD ((3 # 1000) * v) = false)
    by (apply Qltb_false; rewrite E; unfold MIN_SPREAD, Qle; simpl; lia).
  rewrite H2. reflexivity.
Qed.

Section LoggedQuotes.

Variable uniform_filter1d_5 : list Q -> list Q.
Variable np_std : list Q -> Q.

Lemma logged_quote_fields (msg : message) (mm : MarketMaker) (q : QuoteLog) :
  fst (handle_message uniform_filter1d_5 np_std msg mm) = Ok (Some q) ->
  let mm' := snd (handle_message uniform_filter1d_5 np_std msg mm) in
  exists bb bs ba as_,
    bids mm' = bb :: bs /\ asks mm' = ba :: as_ /\
    spread mm'
    = spread_for (volatility_of uniform_filter1d_5 np_std (mid_prices mm')) /\
    q = {| log_our_bid := our_bid ((fst bb + fst ba) / 2) (spread mm');
           log_our_ask := our_ask ((fst bb + fst ba) / 2) (spread mm');
           log_spread_percent := spread mm' * 100;
           log_best_bid := fst bb;
           log_best_ask := fst ba |}.
Proof.
  cbv zeta. destruct msg as [d|]; [|discriminate].
  destruct (process_update d mm) as [[[]|e] mm1] eqn:E.
  - rewrite (handle_message_ok _ _ d mm mm1 E).
    unfold after_process_update, observation.
    destruct (bids mm1) as [|bb bs] eqn:Eb; [discriminate|].
    destruct (asks mm1) as [|ba as_] eqn:Ea; [discriminate|].
    destruct (first_processed mm1); [|discriminate].
    cbv zeta.
    destruct (Nat.ltb 20 (length (mid_prices mm1 ++ [(fst bb + fst ba) / 2])));
      [|discriminate].
    cbn [fst snd]. intros H. injection H as <-.
    exists bb, bs, ba, as_.
    cbn [bids asks spread mid_prices set_spread set_mid_prices hd].
    rewrite Eb, Ea. repeat split.
  - rewrite (handle_message_raise _ _ d mm mm1 e E). destruct e; discriminate.
Qed.

(** X16.  A logged quote is centred on the mid-price of the book the
    message leaves: the best bid and best ask it shows are the prices of the
    first bid and the first ask, [our ask - our bid] is that mid-price times
    the spread, and when the mid-price is positive the quote lies strictly
    around it with a width between 0.1 % and 1 % of it. *)
Theorem logged_quote_around_book_mid
    (msg : message) (mm : MarketMaker) (q : QuoteLog) :
  fst (handle_message uniform_filter1d_5 np_std msg mm) = Ok (Some q) ->
  let mm' := snd (handle_message uniform_filter1d_5 np_std msg mm) in
  let mid := (log_best_bid q + log_best_ask q) / 2 in
  (exists bb bs ba as_,
      bids mm' = bb :: bs /\ asks mm' = ba :: as_ /\
      log_best_bid q = fst bb /\ log_best_ask q = fst ba) /\
  log_our_ask q - log_our_bid q == mid * spread mm' /\
  (0 < mid ->
   log_our_bid q < mid /\ mid < log_our_ask q /\
   mid * MIN_SPREAD <= log_our_ask q - log_our_bid q /\
   log_our_ask q - log_our_bid q <= mid * MAX_SPREAD).
Proof.
  intros Hq. destruct (logged_quote_fields msg mm q Hq)
    as [bb [bs [ba [as_ [Hb [Ha [Hs ->]]]]]]].
  cbv zeta. cbn [log_our_bid log_our_ask log_best_bid log_best_ask].
  split; [exists bb, bs, ba, as_; repeat split; assumption|].
  split; [apply quote_width|].
  intros Hm.
  destruct (spread_for_bounds
              (volatility_of uniform_filter1d_5 np_std
                 (mid_prices (snd (handle_message uniform_filter1d_5 np_std msg mm)))))
    as [B1 B2].
  rewrite <- Hs in B1, B2.
  assert (Hpos : 0 < spread (snd (handle_message uniform_filter1d_5 np_std msg mm))).
  { eapply Qlt_le_trans; [|exact B1]. reflexivity. }
  destruct (quote_order _ _ Hm Hpos) as [O1 O2].
  split; [exact O1|]. split; [exact O2|].
  rewrite quote_width.
  split; apply Qmult_le_l; assumption.
Qed.

End LoggedQuotes.

Lemma logged_quote_around_book_mid_witness :
  let r := handle_message plain_filter zero_std (DepthUpdate next_diff)
             (synced_with 20) in
  exists q, fst r = Ok (Some q) /\
    log_our_ask q - log_our_bid q
      == (log_best_bid q + log_best_ask q) / 2 * spread (snd r) /\
    log_our_bid q < (log_best_bid q + log_best_ask q) / 2 /\
    (log_best_bid q + log_best_ask q) / 2 < log_our_ask q.
Proof.
  cbv zeta. eexists. split; [reflexivity|].
  destruct (logged_quote_around_book_mid plain_filter zero_std
              (DepthUpdate next_diff) (synced_with 20) _ eq_refl)
    as [_ [H1 H2]].
  split; [exact H1|].
  destruct H2 as [H3 [H4 _]]; [reflexivity|].
  split; [exact H3 | exact H4].
Defined.

Section FlatMarket.

Variable uniform_filter1d_5 : list Q -> list Q.
Variable np_std : list Q -> Q.

(** What the development assumes of the two library functions here: the
    moving average of a constant series is that constant, and the standard
    deviation of a series of zeros is zero. *)
Hypothesis filter_flat : forall c l,
  Forall (fun x => x == c) l -> Forall (fun x => x == c) (uniform_filter1d_5 l).
Hypothesis std_zero : forall l,
  Forall (fun x => x == 0) l -> np_std l == 0.

(** X17.  In a flat market the quote uses the minimum spread: when a
    quote is logged and the last 20 mid-prices all have the same non-zero
    value, the spread stored and shown is [MIN_SPREAD]. *)
Theorem flat_market_min_spread
    (msg : message) (mm : MarketMaker) (q : QuoteLog) (c : Q) :
  fst (handle_message uniform_filter1d_5 np_std msg mm) = Ok (Some q) ->
  ~ c == 0 ->
  let mm' := snd (handle_message uniform_filter1d_5 np_std msg mm) in
  Forall (fun x => x == c) (last_20 (mid_prices mm')) ->
  spread mm' = MIN_SPREAD /\ log_spread_percent q = MIN_SPREAD * 100.
Proof.
  intros Hq _ mm' Hflat.
  destruct (logged_quote_fields uniform_filter1d_5 np_std msg mm q Hq)
    as [bb [bs [ba [as_ [_ [_ [Hs ->]]]]]]].
  fold mm' in Hs |- *. cbn [log_spread_percent].
  assert (E : spread mm' = MIN_SPREAD).
  { rewrite Hs. apply spread_for_zero. unfold volatility_of.
    apply std_zero. apply (relative_returns_flat c). apply filter_flat, Hflat. }
  rewrite E. split; reflexivity.
Qed.

End FlatMarket.

Lemma flat_market_min_spread_witness :
  let r := handle_message plain_filter zero_std (DepthUpdate next_diff)
             (synced_with 20) in
  exists q, fst r = Ok (Some q) /\
            spread (snd r) = MIN_SPREAD /\
            log_spread_percent q = MIN_SPREAD * 100.
Proof.
  cbv zeta. eexists. split; [reflexivity|].
  apply (flat_market_min_spread plain_filter zero_std
           (fun c l H => H) (fun l H => Qeq_refl 0)
           (DepthUpdate next_diff) (synced_with 20) _ (201 # 2)).
  - reflexivity.
  - intros H. discriminate H.
  - vm_compute. repeat (constructor; [reflexivity|]). constructor.
Defined.

(** ** Removing what is not there *)

Lemma filter_keeps_all (f : Level -> bool) (l : list Level) :
  (forall x, In x l -> f x = true) -> filter f l = l.
Proof.
  induction l as [|x l IH]; intros H; simpl; [reflexivity|].
  rewrite (H x (or_introl eq_refl)). f_equal. apply IH.
  intros y Hy. apply H. now right.
Qed.

Lemma remove_absent_levels (cs l : list Level) :
  (forall c, In c cs ->
     snd c == 0 /\ forall x, In x l -> ~ fst x == fst c) ->
  fold_left apply_level cs l = l.
Proof.
  induction cs as [|c cs IH]; intros H; simpl; [reflexivity|].
  assert (E : apply_level l c = l).
  { destruct (H c (or_introl eq_refl)) as [Z N].
    destruct c as [p q]. cbn [fst snd] in Z, N.
    unfold apply_level. rewrite (Qeq_eq_bool _ _ Z).
    apply filter_keeps_all. intros x Hx.
    apply negb_true_iff, Qeq_bool_false, N, Hx. }
  rewrite E. apply IH. intros c' Hc'. apply H. now right.
Qed.

(** X18.  Removing what is not there changes nothing: a diff all of whose
    changes have quantity 0 and name prices that the side does not hold
    leaves the bids and asks of a book (one filled by [process_snapshot] and
    any [process_update] calls) exactly as they are. *)
Theorem removing_absent_prices_keeps_book (mm0 : MarketMaker) (s : Snapshot)
    (ds : list Update) (d : Update) :
  let mm := after_updates ds (snd (process_snapshot s mm0)) in
  (forall c, In c (b d) ->
     snd c == 0 /\ forall x, In x (bids mm) -> ~ fst x == fst c) ->
  (forall c, In c (a d) ->
     snd c == 0 /\ forall x, In x (asks mm) -> ~ fst x == fst c) ->
  bids (snd (process_update d mm)) = bids mm /\
  asks (snd (process_update d mm)) = asks mm.
Proof.
  intros mm Hb Ha.
  destruct (lex_sorted_after_updates mm0 s ds) as [Sb Sa]. fold mm in Sb, Sa.
  destruct (process_update_cases d mm) as [-> | ->]; [split; reflexivity|].
  cbn [applied bids asks]. unfold apply_side.
  rewrite (remove_absent_levels _ _ Hb), (remove_absent_levels _ _ Ha).
  rewrite (sort_levels_lex_id true _ Sb), (sort_levels_lex_id false _ Sa).
  split; reflexivity.
Qed.

Lemma removing_absent_prices_keeps_book_witness :
  let mm := after_updates [remove_bid_100] (snd (process_snapshot plain_snapshot init)) in
  let d := {| U := 1002; u := 1002; b := [(100, 0); (98, 0)]; a := [(105, 0)] |} in
  bids (snd (process_update d mm)) = bids mm /\
  asks (snd (process_update d mm)) = asks mm.
Proof.
  cbv zeta.
  apply (removing_absent_prices_keeps_book init plain_snapshot [remove_bid_100]
           {| U := 1002; u := 1002; b := [(100, 0); (98, 0)]; a := [(105, 0)] |}).
  - intros c [<-|[<-|[]]]; (split; [reflexivity | intros x []]).
  - intros c [<-|[]]. split; [reflexivity|].
    intros x [<-|[]] H. discriminate H.
Defined.

(** ** Fields that do not parse *)

Lemma raw_apply_levels_parsed (cs side : list Level) :
  raw_apply_levels (map raw_of_level cs) side
  = (None, fold_left apply_level cs side).
Proof.
  revert side. induction cs as [|c cs IH]; intros side; [reflexivity|].
  cbn [map raw_of_level raw_apply_levels fold_left].
  rewrite <- surjective_pairing. apply IH.
Qed.

Lemma raw_apply_changes_parsed (d : Update) (mm : MarketMaker) :
  raw_apply_changes (raw_of d) mm = (Returns tt, snd (apply_changes d mm)).
Proof.
  unfold raw_apply_changes. cbn [raw_of raw_b raw_a].
  rewrite raw_apply_levels_parsed. cbv zeta.
  rewrite raw_apply_levels_parsed. reflexivity.
Qed.

(** On a depth update whose fields all parse the two descriptions of
    [process_update] agree. *)
Lemma raw_process_update_parsed (d : Update) (mm : MarketMaker) :
  raw_process_update (raw_of d) mm
  = (raw_of_result (fst (process_update d mm)), snd (process_update d mm)).
Proof.
  unfold raw_process_update, process_update, bind, get,
    last_update_id_plus_1, raise, ret.
  destruct mm as [s mp bs as_ [l|] fp]; destruct fp;
    cbn -[Z.leb Z.geb Z.add apply_side raw_apply_changes raw_of apply_changes];
    cbn [raw_of raw_U raw_u]; try reflexivity.
  - destruct (U d <=? l + 1)%Z; [|reflexivity].
    destruct (u d >=? l + 1)%Z; [|reflexivity].
    rewrite raw_apply_changes_parsed. reflexivity.
  - destruct (U d <=? l + 1)%Z; [|reflexivity]. cbn [andb].
    destruct (u d >=? l + 1)%Z; [|reflexivity].
    rewrite raw_apply_changes_parsed. reflexivity.
Qed.







Section RawStream.

Variable uniform_filter1d_5 : list Q -> list Q.
Variable np_std : list Q -> Q.



Lemma raw_handle_message_parsed (msg : message) (mm : MarketMaker) :
  raw_handle_message uniform_filter1d_5 np_std (raw_of_message msg) mm
  = (raw_of_result (fst (handle_message uniform_filter1d_5 np_std msg mm)),
     snd (handle_message uniform_filter1d_5 np_std msg mm)).
Proof.
  destruct msg as [d|]; [|reflexivity].
  cbn [raw_of_message raw_handle_message].
  rewrite raw_process_update_parsed.
  destruct (process_update d mm) as [[[]|e] mm1] eqn:E; cbn [fst snd raw_of_result].
  - rewrite (handle_message_ok _ _ d mm mm1 E). cbv zeta.
    destruct (after_process_update_returns uniform_filter1d_5 np_std mm1)
      as [q Hq].
    rewrite Hq. reflexivity.
  - rewrite (handle_message_raise _ _ d mm mm1 e E).
    destruct e; reflexivity.
Qed.

Lemma raw_handle_messages_parsed (ws : list message) (mm : MarketMaker) :
  raw_handle_messages uniform_filter1d_5 np_std (map raw_of_message ws) mm
  = (fst (handle_messages uniform_filter1d_5 np_std ws mm),
     (raw_of_result (fst (snd (handle_messages uniform_filter1d_5 np_std ws mm))),
      snd (snd (handle_messages uniform_filter1d_5 np_std ws mm)))).
Proof.
  revert mm. induction ws as [|msg ws IH]; intros mm; [reflexivity|].
  cbn [map raw_handle_messages handle_messages].
  rewrite raw_handle_message_parsed.
  destruct (handle_message uniform_filter1d_5 np_std msg mm) as [[q|e] mm1];
    cbn [fst snd raw_of_result]; [|reflexivity].
  rewrite IH.
  destruct (handle_messages uniform_filter1d_5 np_std ws mm1) as [qs [r m]].
  reflexivity.
Qed.

(** X15.  A stream of depth updates whose fields all parse and that
    follow one another (each with [U <= cursor + 1 <= u], the cursor moving
    to its [u]) never raises: the loop returns normally, every diff is
    applied, so that the book is the one the [process_update] calls alone
    produce, and [last_update_id] ends at the [u] of the last diff. *)
Theorem parsed_contiguous_stream_never_raises
    (ds : list Update) (mm : MarketMaker) (l : Z) :
  last_update_id mm = Some l ->
  chain l ds = true ->
  let res := raw_handle_messages uniform_filter1d_5 np_std
               (map (fun d => RawDepthUpdate (raw_of d)) ds) mm in
  fst (snd res) = Returns tt /\
  same_book (snd (snd res)) (after_updates ds mm) /\
  all_in_order mm ds = true /\
  last_update_id (snd (snd res)) = Some (last_u l ds).
Proof.
  intros Hl Hc. cbv zeta.
  change (map (fun d => RawDepthUpdate (raw_of d)) ds)
    with (map (fun d => raw_of_message (DepthUpdate d)) ds).
  rewrite <- (map_map DepthUpdate raw_of_message).
  rewrite raw_handle_messages_parsed. cbn [fst snd].
  destruct (handle_messages_chain uniform_filter1d_5 np_std ds mm l Hl Hc)
    as [H1 [H2 [H3 H4]]].
  cbv zeta in H1, H2, H4. rewrite H1.
  repeat split; try assumption; apply H2.
Qed.

End RawStream.


Lemma parsed_contiguous_stream_never_raises_witness :
  let res := raw_handle_messages plain_filter zero_std
               (map (fun d => RawDepthUpdate (raw_of d))
                    [remove_bid_100; add_levels]) awaiting_1000 in
  fst (snd res) = Returns tt /\
  bids (snd (snd res)) = [(100, 3); (99, 2)] /\
  last_update_id (snd (snd res)) = Some 1004%Z.
Proof.
  cbv zeta.
  destruct (parsed_contiguous_stream_never_raises plain_filter zero_std
              [remove_bid_100; add_levels] awaiting_1000 1000%Z eq_refl eq_refl)
    as [H1 [[H2 _] [_ H4]]].
  split; [exact H1|]. split; [exact H2 | exact H4].
Defined.
